(** * Type-check measurement harness and batch orchestrator

    A shallow embedding of [measure-typechecking.ts] (the type-check prober,
    the benchmark runner and its command line) and of [test.ts] (the batch
    orchestrator), followed by the properties established about them.

    Conventions of the embedding:
    - JavaScript strings are [string]s; only the ASCII part of the language's
      notion of white space is modelled.
    - JavaScript numbers are idealised: finite values are rationals ([Q]) and
      arithmetic on them is exact; the two infinities and NaN are kept apart
      in [Num] where the source can produce them.
    - The outside world (file system, clock, compiler, subprocesses) is an
      abstract state threaded explicitly through every effectful call. *)

From Stdlib Require Import String Ascii List ZArith QArith Qround Qminmax.
From Stdlib Require Import Lia Lqa Bool Sorted Permutation.
Import ListNotations.

Set Implicit Arguments.

(* ===================================================================== *)
(** ** JavaScript built-ins used by the two scripts                      *)
(* ===================================================================== *)

Module JS.

Local Open Scope string_scope.

(** [s.startsWith(p)] *)
Definition startsWith (s p : string) : bool := String.prefix p s.

(** [s.includes(t)]: [t] occurs somewhere in [s]. *)
Fixpoint includes (s t : string) : bool :=
  String.prefix t s ||
  match s with
  | EmptyString => false
  | String _ s' => includes s' t
  end.

(** [s.endsWith(t)]: [t] is one of the suffixes of [s]. *)
Fixpoint endsWith (s t : string) : bool :=
  String.eqb s t ||
  match s with
  | EmptyString => false
  | String _ s' => endsWith s' t
  end.

(** [s.split(sep)] for a one-character separator. *)
Fixpoint split (sep : ascii) (s : string) : list string :=
  match s with
  | EmptyString => [EmptyString]
  | String c s' =>
      if Ascii.eqb c sep then EmptyString :: split sep s'
      else match split sep s' with
           | [] => [String c EmptyString]
           | piece :: pieces => String c piece :: pieces
           end
  end.

(** [xs.find(p)] *)
Definition find {A} (p : A -> bool) (xs : list A) : option A := List.find p xs.

(** [xs.includes(x)] on an array of strings. *)
Definition array_includes (xs : list string) (x : string) : bool :=
  existsb (String.eqb x) xs.

(** *** parseInt *)

Definition is_white_space (c : ascii) : bool :=
  let n := nat_of_ascii c in
  (Nat.eqb n 9 || Nat.eqb n 10 || Nat.eqb n 11 || Nat.eqb n 12
   || Nat.eqb n 13 || Nat.eqb n 32)%bool.

Fixpoint trim_start (s : string) : string :=
  match s with
  | String c s' => if is_white_space c then trim_start s' else s
  | EmptyString => s
  end.

(** Value of a character as a digit of the given radix (10 or 16). *)
Definition digit_value (radix : Z) (c : ascii) : option Z :=
  let n := Z.of_nat (nat_of_ascii c) in
  let v :=
    if ((48 <=? n) && (n <=? 57))%Z%bool then Some (n - 48)%Z
    else if ((97 <=? n) && (n <=? 102))%Z%bool then Some (n - 87)%Z
    else if ((65 <=? n) && (n <=? 70))%Z%bool then Some (n - 55)%Z
    else None in
  match v with
  | Some d => if (d <? radix)%Z then Some d else None
  | None => None
  end.

(** Reads the longest prefix of digits; [acc] is [None] until a first digit
    has been seen. *)
Fixpoint read_digits (radix : Z) (acc : option Z) (s : string) : option Z :=
  match s with
  | EmptyString => acc
  | String c s' =>
      match digit_value radix c with
      | Some d =>
          read_digits radix
            (Some (match acc with Some a => a * radix + d | None => d end)%Z) s'
      | None => acc
      end
  end.

(** An optional sign; [true] for a minus. *)
Definition strip_sign (s : string) : bool * string :=
  match s with
  | String c s' =>
      if Ascii.eqb c "-" then (true, s')
      else if Ascii.eqb c "+" then (false, s')
      else (false, s)
  | EmptyString => (false, s)
  end.

(** An optional [0x] or [0X], which switches to radix 16. *)
Definition strip_radix (s : string) : Z * string :=
  match s with
  | String c (String d s') =>
      if Ascii.eqb c "0" && (Ascii.eqb d "x" || Ascii.eqb d "X")
      then (16%Z, s') else (10%Z, s)
  | _ => (10%Z, s)
  end.

(** [parseInt(s)] without a radix argument; [None] stands for NaN.  The
    result is the exact integer (the source's number is its nearest
    double). *)
Definition parseInt (s : string) : option Z :=
  let (negative, s1) := strip_sign (trim_start s) in
  let (radix, s2) := strip_radix s1 in
  match read_digits radix None s2 with
  | Some v => Some (if negative then - v else v)%Z
  | None => None
  end.

(** [parseInt(x)] when [x] may be [undefined] (an out-of-range index). *)
Definition parseInt_opt (x : option string) : option Z :=
  match x with
  | Some s => parseInt s
  | None => None
  end.

(** [n || d] for a number [n]: NaN and zero are falsy. *)
Definition num_or (n : option Z) (d : Z) : Z :=
  match n with
  | Some v => if (v =? 0)%Z then d else v
  | None => d
  end.

(** *** Numbers and their two-decimal rendering *)

Inductive Num : Type :=
| Fin (q : Q)
| PInf
| NInf
| NaN.

(** Zero carries no sign in this model (the source never divides by a
    negative zero: every time it handles is non-negative). *)
Definition sign_inf (negative : bool) : Num := if negative then NInf else PInf.

Definition is_negative (q : Q) : bool := negb (Qle_bool 0 q).

(** [a / b] *)
Definition div (a b : Num) : Num :=
  match a, b with
  | NaN, _ | _, NaN => NaN
  | Fin x, Fin y =>
      if Qeq_bool y 0 then
        (if Qeq_bool x 0 then NaN else sign_inf (is_negative x))
      else Fin (x / y)
  | Fin _, _ => Fin 0
  | PInf, Fin y => sign_inf (is_negative y)
  | NInf, Fin y => sign_inf (negb (is_negative y))
  | _, _ => NaN
  end.

(** [a - b] *)
Definition sub (a b : Num) : Num :=
  match a, b with
  | NaN, _ | _, NaN => NaN
  | Fin x, Fin y => Fin (x - y)
  | Fin _, PInf => NInf
  | Fin _, NInf => PInf
  | PInf, PInf => NaN
  | NInf, NInf => NaN
  | PInf, _ => PInf
  | NInf, _ => NInf
  end.

(** [x === 1] *)
Definition is_one (x : Num) : bool :=
  match x with
  | Fin q => Qeq_bool q 1
  | _ => false
  end.

(** The strings [x.toFixed(2)] can produce, and the two literals the
    summary table uses next to them.  [Fixed h] is the decimal numeral with
    two fractional digits whose value is [h / 100]. *)
Inductive Cell : Type :=
| Fixed (hundredths : Z)
| TextInfinity
| TextNegInfinity
| TextNaN
| ERROR
| DASH.

(** Nearest integer to [100 * q], the larger one on a tie of a non-negative
    value (the sign is split off first, as [toFixed] does). *)
Definition round2 (q : Q) : Z :=
  if Qle_bool 0 q then Qfloor (q * 100 + (1 # 2))
  else (- Qfloor ((- q) * 100 + (1 # 2)))%Z.

Definition toFixed2 (x : Num) : Cell :=
  match x with
  | Fin q => Fixed (round2 q)
  | PInf => TextInfinity
  | NInf => TextNegInfinity
  | NaN => TextNaN
  end.

(** [parseFloat] on those strings. *)
Definition parseFloat (c : Cell) : Num :=
  match c with
  | Fixed h => Fin (inject_Z h / 100)
  | TextInfinity => PInf
  | TextNegInfinity => NInf
  | TextNaN => NaN
  | ERROR => NaN
  | DASH => NaN
  end.

(** [a < b]; false as soon as one side is NaN. *)
Definition lt (a b : Num) : bool :=
  match a, b with
  | NaN, _ | _, NaN => false
  | Fin x, Fin y => negb (Qle_bool y x)
  | NInf, NInf => false
  | NInf, _ => true
  | _, PInf => match a with PInf => false | _ => true end
  | _, _ => false
  end.

(** [Math.min(...xs)] and [Math.max(...xs)] on finite numbers. *)
Definition Math_min (xs : list Q) : Num :=
  match xs with
  | [] => PInf
  | x :: xs' => Fin (fold_left Qmin xs' x)
  end.

Definition Math_max (xs : list Q) : Num :=
  match xs with
  | [] => NInf
  | x :: xs' => Fin (fold_left Qmax xs' x)
  end.

(** [x >= 0] *)
Definition ge0 (x : Num) : bool :=
  match x with
  | Fin q => Qle_bool 0 q
  | PInf => true
  | _ => false
  end.

(** *** Array.prototype.sort

    The sort is stable; [before a b] says that [a] need not move behind [b],
    that is, the comparator did not return a positive number for [(a, b)]. *)
Section Sort.
Variable A : Type.
Variable before : A -> A -> bool.

Fixpoint insert (x : A) (l : list A) : list A :=
  match l with
  | [] => [x]
  | y :: l' => if before x y then x :: l else y :: insert x l'
  end.

Definition sort (l : list A) : list A := fold_right insert [] l.
End Sort.

(** A comparator's number, read by [sort]: only a positive result moves
    the first argument behind the second. *)
Definition not_positive (x : Num) : bool := negb (lt (Fin 0) x).

(** *** Plain objects used as string-keyed maps

    Properties are kept in creation order; assigning to an existing key keeps
    its place.  The key [__proto__], which an object literal treats
    specially, is outside this model. *)
Section Obj.
Variable V : Type.

Definition Obj : Type := list (string * V).

(** [o[k] = v] *)
Fixpoint set (o : Obj) (k : string) (v : V) : Obj :=
  match o with
  | [] => [(k, v)]
  | (k', v') :: o' =>
      if String.eqb k' k then (k, v) :: o' else (k', v') :: set o' k v
  end.

(** [o[k]] *)
Fixpoint get (o : Obj) (k : string) : option V :=
  match o with
  | [] => None
  | (k', v') :: o' => if String.eqb k' k then Some v' else get o' k
  end.

(** In-place change of the value stored under an existing key, as a method
    call on [o[k]] does; nothing is stored under a missing key (the source
    only does this right after assigning the key). *)
Fixpoint update (o : Obj) (k : string) (f : V -> V) : Obj :=
  match o with
  | [] => []
  | (k', v') :: o' =>
      if String.eqb k' k then (k', f v') :: o' else (k', v') :: update o' k f
  end.

(** The number a key denotes when it is an array index: a canonical
    decimal numeral below [2^32 - 1]. *)
Definition array_index (k : string) : option Z :=
  match k with
  | EmptyString => None
  | String c rest =>
      if (Ascii.eqb c "0" && negb (String.eqb rest EmptyString))%bool then None
      else if forallb (fun d => match digit_value 10 d with
                                | Some _ => true
                                | None => false
                                end) (list_ascii_of_string k)
      then match read_digits 10 None k with
           | Some v => if (v <? 4294967295)%Z then Some v else None
           | None => None
           end
      else None
  end.

Definition is_index (kv : string * V) : bool :=
  match array_index (fst kv) with Some _ => true | None => false end.

Definition index_before (a b : string * V) : bool :=
  match array_index (fst a), array_index (fst b) with
  | Some i, Some j => (i <=? j)%Z
  | _, _ => true
  end.

(** [Object.entries(o)]: array-index keys first, in ascending numeric
    order, then the other keys in creation order. *)
Definition entries (o : Obj) : list (string * V) :=
  (sort index_before (filter is_index o)
   ++ filter (fun kv => negb (is_index kv)) o)%list.
End Obj.

End JS.

(* ===================================================================== *)
(** ** Effects: a changing world and thrown values                        *)
(* ===================================================================== *)

Module Effect.

(** A thrown JavaScript value, as far as the [catch] clause looks at it:
    an [Error] with its [message], or anything else with its [String(..)]. *)
Inductive Thrown : Type :=
| ThrownError (message : string)
| ThrownValue (asString : string).

(** [error instanceof Error ? error.message : String(error)] *)
Definition thrown_text (e : Thrown) : string :=
  match e with
  | ThrownError message => message
  | ThrownValue asString => asString
  end.

Section Monad.
Variable World : Type.

(** Computations that read and change the world and may throw. *)
Definition M (A : Type) : Type := World -> (Thrown + A) * World.

Definition ret {A} (a : A) : M A := fun w => (inr a, w).

Definition throw {A} (e : Thrown) : M A := fun w => (inl e, w).

Definition bind {A B} (m : M A) (k : A -> M B) : M B :=
  fun w =>
    match m w with
    | (inr a, w') => k a w'
    | (inl e, w') => (inl e, w')
    end.
End Monad.

Arguments ret {World A} a.
Arguments throw {World A} e.
Arguments bind {World A B} m k.

Declare Scope effect_scope.
Delimit Scope effect_scope with effect.
Notation "x <- m ;; k" := (bind m (fun x => k))
  (at level 100, m at next level, right associativity) : effect_scope.

End Effect.

(* ===================================================================== *)
(** ** measure-typechecking.ts                                            *)
(* ===================================================================== *)

Module Measure.

Import Effect.
Local Open Scope string_scope.

(** [interface TimingResult] *)
Record TimingResult : Type := {
  file : string;
  typeCheckTime : Q;
  totalTime : Q;
  diagnosticsCount : nat;
  success : bool;
  error : option string
}.

Section Probe.
Variable World : Type.
Variables CompilerOptions Program Diagnostic : Type.

(** The collaborators of the prober. *)
Variable path_resolve : string -> string.
Variable fs_existsSync : World -> string -> bool.
Variable performance_now : World -> Q * World.
(** [ts.findConfigFile("./", ts.sys.fileExists, "tsconfig.json")] *)
Variable ts_findConfigFile : M World (option string).
(** [ts.readConfigFile] followed by [ts.parseJsonConfigFileContent(..).options] *)
Variable ts_readOptions : string -> M World CompilerOptions.
Variable ts_createProgram : list string -> CompilerOptions -> M World Program.
Variable getSemanticDiagnostics : Program -> M World (list Diagnostic).
Variable getSyntacticDiagnostics : Program -> M World (list Diagnostic).
Variable getGlobalDiagnostics : Program -> M World (list Diagnostic).

(** Reading the clock never throws. *)
Definition now : M World Q :=
  fun w => let (t, w') := performance_now w in (inr t, w').

(** Lines 33-50: configuration lookup and program construction. *)
Definition setup (fullPath : string) : M World Program :=
  (configPath <- ts_findConfigFile ;;
   match configPath with
   | None | Some EmptyString =>
       throw (ThrownError "Could not find a valid 'tsconfig.json'.")
   | Some configPath =>
       compilerOptions <- ts_readOptions configPath ;;
       ts_createProgram [fullPath] compilerOptions
   end)%effect.

(** Lines 56-60: the three diagnostic requests, concatenated. *)
Definition collect (program : Program) : M World (list Diagnostic) :=
  (semantic <- getSemanticDiagnostics program ;;
   syntactic <- getSyntacticDiagnostics program ;;
   global <- getGlobalDiagnostics program ;;
   ret (semantic ++ syntactic ++ global)%list)%effect.

(** The body of the [try] block. *)
Definition try_block (fileName fullPath : string) (startTotal : Q)
  : M World TimingResult :=
  (program <- setup fullPath ;;
   startTypeCheck <- now ;;
   diagnostics <- collect program ;;
   endTypeCheck <- now ;;
   endTotal <- now ;;
   ret {| file := fileName;
          typeCheckTime := endTypeCheck - startTypeCheck;
          totalTime := endTotal - startTotal;
          diagnosticsCount := length diagnostics;
          success := true;
          error := None |})%effect.

Definition measureTypeChecking (fileName : string) (w : World)
  : TimingResult * World :=
  let fullPath := path_resolve fileName in
  if negb (fs_existsSync w fullPath) then
    ({| file := fileName;
        typeCheckTime := 0;
        totalTime := 0;
        diagnosticsCount := 0;
        success := false;
        error := Some ("File not found: " ++ fullPath) |}, w)
  else
    let (startTotal, w0) := performance_now w in
    match try_block fileName fullPath startTotal w0 with
    | (inr result, w1) => (result, w1)
    | (inl e, w1) =>
        let (endTotal, w2) := performance_now w1 in
        ({| file := fileName;
            typeCheckTime := 0;
            totalTime := endTotal - startTotal;
            diagnosticsCount := 0;
            success := false;
            error := Some (thrown_text e) |}, w2)
    end.

(** The record the [catch] clause builds. *)
Definition caught (fileName : string) (startTotal endTotal : Q) (e : Thrown)
  : TimingResult :=
  {| file := fileName;
     typeCheckTime := 0;
     totalTime := endTotal - startTotal;
     diagnosticsCount := 0;
     success := false;
     error := Some (thrown_text e) |}.

(** The reading [performance.now()] would give in a world. *)
Definition clock (w : World) : Q := fst (performance_now w).

(** The clock is monotonic: no collaborator, and no reading of the clock
    itself, takes it back. *)
Definition advances {A} (m : M World A) : Prop :=
  forall w, clock w <= clock (snd (m w)).

Record MonotonicClock : Prop := {
  mono_now : forall w, clock w <= clock (snd (performance_now w));
  mono_findConfigFile : advances ts_findConfigFile;
  mono_readOptions : forall p, advances (ts_readOptions p);
  mono_createProgram : forall fs o, advances (ts_createProgram fs o);
  mono_semantic : forall p, advances (getSemanticDiagnostics p);
  mono_syntactic : forall p, advances (getSyntacticDiagnostics p);
  mono_global : forall p, advances (getGlobalDiagnostics p)
}.

(** The program for [fullPath] was built without an error, from world
    [w0] to world [w1]. *)
Definition Constructed (fullPath : string) (w0 : World) (program : Program)
    (w1 : World) : Prop :=
  exists configPath wa options wb,
    ts_findConfigFile w0 = (inr (Some configPath), wa)
    /\ configPath <> EmptyString
    /\ ts_readOptions configPath wa = (inr options, wb)
    /\ ts_createProgram [fullPath] options wb = (inr program, w1).

(** An error [e] is raised somewhere between the start of the [try] block
    in world [w0] and world [w1]: by one of the collaborators, or by the
    script itself when no configuration file is found. *)
Inductive Raised (fullPath : string) (w0 : World) (e : Thrown) (w1 : World)
  : Prop :=
| raised_by_lookup :
    ts_findConfigFile w0 = (inl e, w1) -> Raised fullPath w0 e w1
| raised_no_config configPath :
    ts_findConfigFile w0 = (inr configPath, w1) ->
    configPath = None \/ configPath = Some EmptyString ->
    e = ThrownError "Could not find a valid 'tsconfig.json'." ->
    Raised fullPath w0 e w1
| raised_by_options configPath wa :
    ts_findConfigFile w0 = (inr (Some configPath), wa) ->
    configPath <> EmptyString ->
    ts_readOptions configPath wa = (inl e, w1) ->
    Raised fullPath w0 e w1
| raised_by_construction configPath wa options wb :
    ts_findConfigFile w0 = (inr (Some configPath), wa) ->
    configPath <> EmptyString ->
    ts_readOptions configPath wa = (inr options, wb) ->
    ts_createProgram [fullPath] options wb = (inl e, w1) ->
    Raised fullPath w0 e w1
| raised_by_semantic program wa :
    Constructed fullPath w0 program wa ->
    getSemanticDiagnostics program (snd (performance_now wa)) = (inl e, w1) ->
    Raised fullPath w0 e w1
| raised_by_syntactic program wa semantic wb :
    Constructed fullPath w0 program wa ->
    getSemanticDiagnostics program (snd (performance_now wa))
      = (inr semantic, wb) ->
    getSyntacticDiagnostics program wb = (inl e, w1) ->
    Raised fullPath w0 e w1
| raised_by_global program wa semantic wb syntactic wc :
    Constructed fullPath w0 program wa ->
    getSemanticDiagnostics program (snd (performance_now wa))
      = (inr semantic, wb) ->
    getSyntacticDiagnostics program wb = (inr syntactic, wc) ->
    getGlobalDiagnostics program wc = (inl e, w1) ->
    Raised fullPath w0 e w1.

(** *** The benchmark runner *)

(** One row of [summaryData]. *)
Record SummaryRow : Type := {
  File : string;
  Avg_Type_Check : JS.Cell;
  Min : JS.Cell;
  Max : JS.Cell;
  Diagnostics : nat
}.

(** ["BASELINE"] or [`${ratio.toFixed(2)}x slower`]. *)
Inductive RelativeSpeed : Type :=
| BASELINE
| Slower (ratio : JS.Cell).

(** [`${diff >= 0 ? "+" : ""}${diff.toFixed(2)}`] *)
Record SignedCell : Type := {
  plus : bool;
  digits : JS.Cell
}.

(** A leading plus sign does not change what [parseFloat] reads. *)
Definition parseSigned (s : SignedCell) : JS.Num := JS.parseFloat (digits s).

(** One row of [comparisonData]. *)
Record ComparisonRow : Type := {
  cFile : string;
  Relative_Speed : RelativeSpeed;
  Absolute_Diff : SignedCell
}.

(** What [runBenchmark] leaves on the console: the summary table, then
    the comparison table when there is one; or the summary table followed
    by the TypeError that [reduce] throws on an empty array. *)
Inductive Outcome : Type :=
| Completed (summaryData : list SummaryRow)
            (comparisonData : option (list ComparisonRow))
| ReduceOfEmptyArray (summaryData : list SummaryRow).

(** The world together with the record of the prober's invocations so
    far, oldest first. *)
Record State : Type := {
  world : World;
  calls : list (string * TimingResult)
}.

(** One invocation of the prober by the runner. *)
Definition probe (file : string) (st : State) : TimingResult * State :=
  let (result, w') := measureTypeChecking file (world st) in
  (result, {| world := w'; calls := (calls st ++ [(file, result)])%list |}).

(** Lines 94-96: the warm-up pass; results are dropped. *)
Fixpoint warm_up (files : list string) (st : State) : State :=
  match files with
  | [] => st
  | file :: rest => warm_up rest (snd (probe file st))
  end.

(** Lines 103-111: at most [n] more iterations for [file]. *)
Fixpoint iterate (n : nat) (file : string)
    (results : JS.Obj (list TimingResult)) (st : State)
  : JS.Obj (list TimingResult) * State :=
  match n with
  | O => (results, st)
  | S n' =>
      let (result, st') := probe file st in
      let results' := JS.update results file (fun rs => (rs ++ [result])%list) in
      if negb (success result) then (results', st')
      else iterate n' file results' st'
  end.

(** Lines 99-112: the measured phase.  [iterations] is an integer ([main]
    passes the default 5 or a result of [parseInt]); the loop counter runs
    over the integers from 0 up to, not including, [iterations]. *)
Fixpoint measure_all (iterations : Z) (files : list string)
    (results : JS.Obj (list TimingResult)) (st : State)
  : JS.Obj (list TimingResult) * State :=
  match files with
  | [] => (results, st)
  | file :: rest =>
      let (results', st') :=
        iterate (Z.to_nat iterations) file (JS.set results file []) st in
      measure_all iterations rest results' st'
  end.

(** The invocations one fixture's measured phase may consist of when at
    most [n] iterations are left: successful ones, stopped by the first
    failed one or by the bound. *)
Inductive Measured (file : string)
  : nat -> list (string * TimingResult) -> Prop :=
| measured_none : Measured file 0 []
| measured_failed n result :
    success result = false -> Measured file (S n) [(file, result)]
| measured_ok n result rest :
    success result = true ->
    Measured file n rest ->
    Measured file (S n) ((file, result) :: rest).

(** The same, spelled out: every invocation is for [file]; there are at
    most [iterations] of them; nothing follows a failed one; and fewer
    than [iterations] happen only when the last one failed. *)
Definition Segment (iterations : Z) (file : string)
    (segment : list (string * TimingResult)) : Prop :=
  Forall (fun call => fst call = file) segment
  /\ (Z.of_nat (length segment) <= Z.max 0 iterations)%Z
  /\ (forall before call after,
         segment = (before ++ call :: after)%list ->
         success (snd call) = false -> after = [])
  /\ ((Z.of_nat (length segment) < iterations)%Z ->
      exists before call,
        segment = (before ++ [call])%list /\ success (snd call) = false).

Definition error_row (file : string) : SummaryRow :=
  {| File := file;
     Avg_Type_Check := JS.ERROR;
     Min := JS.DASH;
     Max := JS.DASH;
     Diagnostics := 0 |}.

(** [typeCheckTimes.reduce((a, b) => a + b, 0)] *)
Definition total (typeCheckTimes : list Q) : Q :=
  fold_left Qplus typeCheckTimes 0.

(** Lines 128-152: the summary row of one fixture. *)
Definition summarize (file : string) (fileResults : list TimingResult)
  : SummaryRow :=
  match fileResults with
  | [] => error_row file
  | first :: _ =>
      if negb (success first) then error_row file
      else
        let typeCheckTimes := map typeCheckTime fileResults in
        let avg :=
          JS.div (JS.Fin (total typeCheckTimes))
                 (JS.Fin (inject_Z (Z.of_nat (length typeCheckTimes)))) in
        let min := JS.Math_min typeCheckTimes in
        let max := JS.Math_max typeCheckTimes in
        {| File := file;
           Avg_Type_Check := JS.toFixed2 avg;
           Min := JS.toFixed2 min;
           Max := JS.toFixed2 max;
           Diagnostics := diagnosticsCount first |}
  end.

Definition summary (results : JS.Obj (list TimingResult)) : list SummaryRow :=
  map (fun entry => summarize (fst entry) (snd entry)) (JS.entries results).

(** The summary row in the words of the specification, for comparison
    with [summarize]: average, minimum and maximum of [typeCheckTime]
    over the successful iterations only, and the diagnostic count of the
    first iteration. *)
Definition summarize_successful (file : string)
    (fileResults : list TimingResult) : SummaryRow :=
  let typeCheckTimes := map typeCheckTime (filter success fileResults) in
  {| File := file;
     Avg_Type_Check :=
       JS.toFixed2
         (JS.div (JS.Fin (total typeCheckTimes))
                 (JS.Fin (inject_Z (Z.of_nat (length typeCheckTimes)))));
     Min := JS.toFixed2 (JS.Math_min typeCheckTimes);
     Max := JS.toFixed2 (JS.Math_max typeCheckTimes);
     Diagnostics :=
       match fileResults with
       | first :: _ => diagnosticsCount first
       | [] => 0
       end |}.

(** [d["Avg Type Check (ms)"] !== "ERROR"] *)
Definition is_valid (d : SummaryRow) : bool :=
  match Avg_Type_Check d with
  | JS.ERROR => false
  | _ => true
  end.

(** The callback of [validData.reduce]. *)
Definition faster (a b : SummaryRow) : SummaryRow :=
  if JS.lt (JS.parseFloat (Avg_Type_Check a)) (JS.parseFloat (Avg_Type_Check b))
  then a else b.

(** [validData.reduce(..)] without an initial value; [None] is the
    TypeError on an empty array. *)
Definition reduce_fastest (validData : list SummaryRow) : option SummaryRow :=
  match validData with
  | [] => None
  | d :: rest => Some (fold_left faster rest d)
  end.

(** The callback of [validData.map]. *)
Definition compare_to (fastestTime : JS.Num) (data : SummaryRow)
  : ComparisonRow :=
  let avgTime := JS.parseFloat (Avg_Type_Check data) in
  let ratio := JS.div avgTime fastestTime in
  let diff := JS.sub avgTime fastestTime in
  {| cFile := File data;
     Relative_Speed :=
       if JS.is_one ratio then BASELINE else Slower (JS.toFixed2 ratio);
     Absolute_Diff := {| plus := JS.ge0 diff; digits := JS.toFixed2 diff |} |}.

(** The comparator of the final [sort], as [sort] reads it. *)
Definition diff_before (a b : ComparisonRow) : bool :=
  JS.not_positive
    (JS.sub (parseSigned (Absolute_Diff a)) (parseSigned (Absolute_Diff b))).

(** Lines 158-198. *)
Definition comparison (summaryData : list SummaryRow) : Outcome :=
  if (1 <? length summaryData)%nat then
    let validData := filter is_valid summaryData in
    match reduce_fastest validData with
    | None => ReduceOfEmptyArray summaryData
    | Some fastest =>
        let fastestTime := JS.parseFloat (Avg_Type_Check fastest) in
        Completed summaryData
          (Some (JS.sort diff_before (map (compare_to fastestTime) validData)))
    end
  else Completed summaryData None.





Definition runBenchmark (files : list string) (iterations : Z) (st : State)
  : Outcome * State :=
  let st1 := warm_up files st in
  let (results, st2) := measure_all iterations files [] st1 in
  (comparison (summary results), st2).

(** *** The command line *)

Definition is_iterations_arg (arg : string) : bool :=
  JS.startsWith arg "--iterations=".

(** Lines 226-233: the files to probe and the iteration count. *)
Definition parse_args (args : list string) : list string * Z :=
  match JS.find is_iterations_arg args with
  | Some iterArg =>
      (filter (fun arg => negb (is_iterations_arg arg)) args,
       JS.num_or (JS.parseInt_opt (nth_error (JS.split "=" iterArg) 1)) 5)
  | None => (args, 5%Z)
  end.

(** How the process ends: the usage text and [process.exit(1)], or
    whatever [runBenchmark] did. *)
Inductive Ending : Type :=
| Usage
| Ran (outcome : Outcome).

Definition main (args : list string) (st : State) : Ending * State :=
  match args with
  | [] => (Usage, st)
  | _ =>
      let (files, iterations) := parse_args args in
      let (outcome, st') := runBenchmark files iterations st in
      (Ran outcome, st')
  end.

(** The exit status of the process: 1 after the usage text and after an
    uncaught exception, 0 when [main] returns. *)
Definition exit_status (e : Ending) : Z :=
  match e with
  | Usage => 1
  | Ran (ReduceOfEmptyArray _) => 1
  | Ran (Completed _ _) => 0
  end.

End Probe.

End Measure.

(* ===================================================================== *)
(** ** test.ts: the batch orchestrator                                    *)
(* ===================================================================== *)

Module Orchestrator.

Import Effect.
Local Open Scope string_scope.

(** An element of the module-level [results] array. *)
Record RunResult : Type := {
  test : string;
  success : bool;
  skipped : option bool
}.

(** The three marks [printResults] puts in front of a fixture. *)
Inductive Mark : Type :=
| MarkSkipped
| MarkSuccess
| MarkFailed.

(** A subprocess the script started, and whether its promise resolved
    ([true]) or rejected ([false]: non-zero exit, signal, spawn failure). *)
Record Spawned : Type := {
  command : string;
  arguments : list string;
  environment : list (string * string);
  resolved : bool
}.

(** A subprocess whose promise rejected. *)
Definition rejected (p : Spawned) : bool := negb (resolved p).

(** [{ shouldOnlyGenerate, shouldSkipGenerate }] *)
Record GenerateOptions : Type := {
  shouldOnlyGenerate : bool;
  shouldSkipGenerate : bool
}.

(** How the process ends when no exception escapes: [process.exit(0)]
    right after generation, or [process.exit(..)] after the printed table. *)
Inductive Ending : Type :=
| ExitAfterGenerate
| ExitAfterResults (printed : list (Mark * string)) (status : Z).

Section Script.
Variable World : Type.

(** The collaborators of the script. *)
Variable benchmarkDir : string.
Variable join : string -> string -> string.
Variable readdir : string -> M World (list string).
(** [(await stat(p)).isFile()] *)
Variable stat_isFile : string -> M World bool.
(** [execa(command, args, { cwd, stdio: "inherit", env })] *)
Variable execa :
  string -> list string -> string -> list (string * string) -> M World unit.

(** The world, the module-level [hasAnyFailure], and the record of the
    subprocesses started so far, oldest first. *)
Record State : Type := {
  world : World;
  hasAnyFailure : bool;
  spawned : list Spawned
}.

(** A collaborator's call, seen from the script. *)
Definition lift {A} (m : M World A) : M State A :=
  fun st =>
    let (r, w') := m (world st) in
    (r, {| world := w';
           hasAnyFailure := hasAnyFailure st;
           spawned := spawned st |}).

(** [await execa(..)], entered in the record. *)
Definition run_execa (cmd : string) (args : list string) (cwd : string)
    (env : list (string * string)) : M State unit :=
  fun st =>
    let (r, w') := execa cmd args cwd env (world st) in
    (r, {| world := w';
           hasAnyFailure := hasAnyFailure st;
           spawned :=
             (spawned st ++
              [{| command := cmd; arguments := args; environment := env;
                  resolved := match r with inr _ => true | inl _ => false end
               |}])%list |}).

(** [hasAnyFailure = true] *)
Definition set_failure : M State unit :=
  fun st =>
    (inr tt, {| world := world st;
                hasAnyFailure := true;
                spawned := spawned st |}).

Definition read_failure : M State bool :=
  fun st => (inr (hasAnyFailure st), st).

(** [try { m } catch { handler }] *)
Definition try_catch {A} (m : M State A) (handler : M State A) : M State A :=
  fun st =>
    match m st with
    | (inr a, st') => (inr a, st')
    | (inl _, st') => handler st'
    end.

Definition shouldUpdateSnapshots (args : list string) : bool :=
  JS.array_includes args "-u" || JS.array_includes args "--updateSnapshots".

Definition getGenerateOptions (args : list string) : M State GenerateOptions :=
  let shouldOnlyGenerate := JS.array_includes args "--onlyGenerate" in
  let shouldSkipGenerate := JS.array_includes args "--skipGenerate" in
  if shouldOnlyGenerate && shouldSkipGenerate then
    throw (ThrownError "Cannot run generate and skip generate at the same time")
  else
    ret {| shouldOnlyGenerate := shouldOnlyGenerate;
           shouldSkipGenerate := shouldSkipGenerate |}.

Definition getTestFilter (args : list string) : option string :=
  JS.find (fun arg => negb (JS.startsWith arg "-")) args.

(** The loop of [getBenchmarkFiles] over the directory listing. *)
Fixpoint keep_bench_files (dir : string) (items : list string)
    (benchmarkFiles : list string) : M State (list string) :=
  match items with
  | [] => ret benchmarkFiles
  | item :: rest =>
      (isFile <- lift (stat_isFile (join dir item)) ;;
       if isFile && JS.endsWith item ".bench.ts"
       then keep_bench_files dir rest (benchmarkFiles ++ [item])%list
       else keep_bench_files dir rest benchmarkFiles)%effect
  end.

Definition getBenchmarkFiles (dir : string) : M State (list string) :=
  (items <- lift (readdir dir) ;;
   keep_bench_files dir items [])%effect.

Definition runGenerate (dir : string) : M State unit :=
  run_execa "prisma" ["generate"] dir [].

Definition runBenchmark (benchFile cwd : string) (updateSnapshots : bool)
  : M State RunResult :=
  try_catch
    (_ <- run_execa "node" [benchFile] cwd
            [("ATTEST_updateSnapshots",
              if updateSnapshots then "true" else "false")] ;;
     ret {| test := benchFile; success := true; skipped := None |})%effect
    (_ <- set_failure ;;
     ret {| test := benchFile; success := false; skipped := None |})%effect.

(** [testFilter && !benchFile.includes(testFilter)]: an absent filter and
    the empty string are falsy. *)
Definition filtered_out (testFilter : option string) (benchFile : string)
  : bool :=
  match testFilter with
  | None | Some EmptyString => false
  | Some f => negb (JS.includes benchFile f)
  end.

(** Lines 28-41. *)
Fixpoint run_all (benchFiles : list string) (testFilter : option string)
    (updateSnapshots : bool) (results : list RunResult)
  : M State (list RunResult) :=
  match benchFiles with
  | [] => ret results
  | benchFile :: rest =>
      if filtered_out testFilter benchFile then
        run_all rest testFilter updateSnapshots
          (results ++
           [{| test := benchFile; success := false; skipped := Some true |}])%list
      else
        (result <- runBenchmark benchFile benchmarkDir updateSnapshots ;;
         run_all rest testFilter updateSnapshots (results ++ [result])%list)%effect
  end.

Definition mark (result : RunResult) : Mark :=
  match skipped result with
  | Some true => MarkSkipped
  | _ => if success result then MarkSuccess else MarkFailed
  end.

(** The status lines of [printResults]. *)
Definition printResults (results : list RunResult) : list (Mark * string) :=
  map (fun result => (mark result, test result)) results.

(** The module body, top to bottom. *)
Definition script (args : list string) : M State Ending :=
  let updateSnapshots := shouldUpdateSnapshots args in
  (options <- getGenerateOptions args ;;
   let testFilter := getTestFilter args in
   _ <- (if negb (shouldSkipGenerate options)
         then runGenerate benchmarkDir else ret tt) ;;
   if shouldOnlyGenerate options then ret ExitAfterGenerate
   else
     benchFiles <- getBenchmarkFiles benchmarkDir ;;
     results <- run_all benchFiles testFilter updateSnapshots [] ;;
     failed <- read_failure ;;
     ret (ExitAfterResults (printResults results)
            (if failed then 1 else 0)%Z))%effect.

(** A computation that starts no subprocess and leaves [hasAnyFailure]
    alone. *)
Definition quiet {A} (m : M State A) : Prop :=
  forall st, hasAnyFailure (snd (m st)) = hasAnyFailure st
             /\ spawned (snd (m st)) = spawned st.

(** The subprocess started for one fixture. *)
Definition fixture_process (benchFile : string) (updateSnapshots ok : bool)
  : Spawned :=
  {| command := "node";
     arguments := [benchFile];
     environment := [("ATTEST_updateSnapshots",
                      if updateSnapshots then "true" else "false")];
     resolved := ok |}.

(** What the loop over the fixtures can produce: for every fixture, in
    order, either a skipped entry and no subprocess, or one subprocess and
    an entry telling whether it resolved. *)
Inductive Outcomes (testFilter : option string) (updateSnapshots : bool)
  : list string -> list RunResult -> list Spawned -> Prop :=
| outcomes_done : Outcomes testFilter updateSnapshots [] [] []
| outcomes_skip benchFile rest results subprocesses :
    filtered_out testFilter benchFile = true ->
    Outcomes testFilter updateSnapshots rest results subprocesses ->
    Outcomes testFilter updateSnapshots (benchFile :: rest)
      ({| test := benchFile; success := false; skipped := Some true |}
       :: results)
      subprocesses
| outcomes_run benchFile ok rest results subprocesses :
    filtered_out testFilter benchFile = false ->
    Outcomes testFilter updateSnapshots rest results subprocesses ->
    Outcomes testFilter updateSnapshots (benchFile :: rest)
      ({| test := benchFile; success := ok; skipped := None |} :: results)
      (fixture_process benchFile updateSnapshots ok :: subprocesses).

(** A run of the script from a fresh module state. *)
Definition run (args : list string) (w : World) : (Thrown + Ending) * State :=
  script args {| world := w; hasAnyFailure := false; spawned := [] |}.

End Script.

End Orchestrator.

(* ===================================================================== *)
(** ** Concrete worlds, for running the two scripts on examples           *)
(* ===================================================================== *)

Module Lab.

Import Effect.
Local Open Scope string_scope.

(** A file on disk: its absolute path, how many more program constructions
    it survives before something outside removes it, and how long the
    compiler takes to check it (in whole milliseconds). *)
Record Entry : Type := {
  path : string;
  lifetime : nat;
  checkTime : N
}.

Record World : Type := {
  time : Q;
  disk : list Entry;
  tsconfig : option string
}.

Definition path_resolve (fileName : string) : string := "/bench/" ++ fileName.

Definition fs_existsSync (w : World) (fullPath : string) : bool :=
  existsb (fun e => String.eqb (path e) fullPath && negb (Nat.eqb (lifetime e) 0))
          (disk w).

Definition performance_now (w : World) : Q * World := (time w, w).

Definition elapse (d : Q) (w : World) : World :=
  {| time := time w + d; disk := disk w; tsconfig := tsconfig w |}.

Definition ts_findConfigFile : M World (option string) :=
  fun w => (inr (tsconfig w), elapse 1 w).

Definition ts_readOptions (configPath : string) : M World unit :=
  fun w => (inr tt, elapse 1 w).

Definition age (fullPath : string) (e : Entry) : Entry :=
  if String.eqb (path e) fullPath
  then {| path := path e; lifetime := pred (lifetime e); checkTime := checkTime e |}
  else e.

(** The program is represented by the path of its root file. *)
Definition ts_createProgram (rootNames : list string) (options : unit)
  : M World string :=
  fun w =>
    let root := hd "" rootNames in
    (inr root,
     {| time := time w + 2; disk := map (age root) (disk w);
        tsconfig := tsconfig w |}).

Definition check_cost (w : World) (program : string) : Q :=
  match List.find (fun e => String.eqb (path e) program) (disk w) with
  | Some e => inject_Z (Z.of_N (checkTime e))
  | None => 0
  end.

Definition getSemanticDiagnostics (program : string) : M World (list unit) :=
  fun w => (inr [], elapse (check_cost w program) w).

Definition getSyntacticDiagnostics (program : string) : M World (list unit) :=
  fun w => (inr [], w).

Definition getGlobalDiagnostics (program : string) : M World (list unit) :=
  fun w => (inr [], w).

Definition measureTypeChecking : string -> World -> Measure.TimingResult * World :=
  Measure.measureTypeChecking path_resolve fs_existsSync performance_now
    ts_findConfigFile ts_readOptions ts_createProgram
    getSemanticDiagnostics getSyntacticDiagnostics getGlobalDiagnostics.

Definition runBenchmark :=
  Measure.runBenchmark path_resolve fs_existsSync performance_now
    ts_findConfigFile ts_readOptions ts_createProgram
    getSemanticDiagnostics getSyntacticDiagnostics getGlobalDiagnostics.

Definition main :=
  Measure.main path_resolve fs_existsSync performance_now
    ts_findConfigFile ts_readOptions ts_createProgram
    getSemanticDiagnostics getSyntacticDiagnostics getGlobalDiagnostics.

Definition start (w : World) : Measure.State World :=
  {| Measure.world := w; Measure.calls := [] |}.

(** [a.ts] is removed after its second program construction; [b.ts] and
    [c.ts] stay. *)
Definition flaky_disk : World :=
  {| time := 0;
     disk := [ {| path := "/bench/a.ts"; lifetime := 2; checkTime := 10 |};
               {| path := "/bench/b.ts"; lifetime := 1000; checkTime := 30 |};
               {| path := "/bench/c.ts"; lifetime := 1000; checkTime := 12 |} ];
     tsconfig := Some "/bench/tsconfig.json" |}.

(** The same disk without a [tsconfig.json] anywhere above it. *)
Definition no_config : World :=
  {| time := 0; disk := disk flaky_disk; tsconfig := None |}.

(** The directory of the orchestrator: two fixtures and a stray file; the
    world is the list of fixture files whose subprocess exits non-zero. *)
Definition readdir (dir : string) : M (list string) (list string) :=
  fun w => (inr ["a.bench.ts"; "notes.md"; "b.bench.ts"], w).

Definition stat_isFile (p : string) : M (list string) bool :=
  fun w => (inr true, w).

Definition execa (cmd : string) (args : list string) (cwd : string)
    (env : list (string * string)) : M (list string) unit :=
  fun w =>
    if String.eqb cmd "node" && existsb (fun f => JS.array_includes args f) w
    then (inl (ThrownError "Command failed with exit code 1"), w)
    else (inr tt, w).

Definition run : list string -> list string -> _ :=
  Orchestrator.run "/bench" (fun dir item => dir ++ "/" ++ item)
    readdir stat_isFile execa.

End Lab.

(* ===================================================================== *)
(** ** Vocabulary for the further properties                              *)
(* ===================================================================== *)

Module Views.

Import Effect.
Local Open Scope string_scope.

(** The summary table an outcome of [runBenchmark] has printed. *)
Definition summary_table (o : Measure.Outcome) : list Measure.SummaryRow :=
  match o with
  | Measure.Completed summaryData _ => summaryData
  | Measure.ReduceOfEmptyArray summaryData => summaryData
  end.

(** The file list names at least two different paths. *)
Definition two_paths (files : list string) : Prop :=
  exists f g, In f files /\ In g files /\ f <> g.

(** [segment] is, among the segments of measured invocations (one per
    entry of the file list), the one made for the last entry named
    [file]. *)
Definition last_segment_of (files : list string)
    (segments : list (list (string * Measure.TimingResult)))
    (file : string) (segment : list (string * Measure.TimingResult)) : Prop :=
  exists before after segments_before segments_after,
    files = (before ++ file :: after)%list
    /\ segments = (segments_before ++ segment :: segments_after)%list
    /\ length segments_before = length before
    /\ ~ In file after.

(** The paths are ordinary keys of the [results] object: none of them is
    [__proto__], for which the assignment [results[file] = []] sets the
    object's prototype and leaves no property for [Object.entries] to
    list. *)
Definition ordinary_keys (files : list string) : Prop :=
  ~ In "__proto__" files.

(** What a fixture's subprocess is started with. *)
Definition invocation (p : Orchestrator.Spawned)
  : string * list string * list (string * string) :=
  (Orchestrator.command p, Orchestrator.arguments p, Orchestrator.environment p).

(** The items [getBenchmarkFiles] keeps, given the answers of [stat] to
    [isFile()], item by item. *)
Fixpoint kept (items : list string) (answers : list bool) : list string :=
  match items, answers with
  | item :: items', isFile :: answers' =>
      if isFile && JS.endsWith item ".bench.ts"
      then item :: kept items' answers'
      else kept items' answers'
  | _, _ => []
  end.

(** The world [w1] in which the directory is read, for a run started in
    [w]: [w] itself under [--skipGenerate], and otherwise the world the
    generator's subprocess resolves in. *)
Definition Generated (World : Type)
    (execa : string -> list string -> string -> list (string * string)
             -> M World unit)
    (benchmarkDir : string) (args : list string) (w w1 : World) : Prop :=
  if JS.array_includes args "--skipGenerate" then w1 = w
  else execa "prisma" ["generate"] benchmarkDir [] w = (inr tt, w1).

Section Directory.
Variable World : Type.
Variable join : string -> string -> string.
Variable stat_isFile : string -> M World bool.

(** [stat] answers for every item of the listing, in order, taking the
    world from [w] to [w']. *)
Inductive Stats (dir : string)
  : list string -> World -> list bool -> World -> Prop :=
| stats_done w : Stats dir [] w [] w
| stats_next item items w isFile w1 answers w2 :
    stat_isFile (join dir item) w = (inr isFile, w1) ->
    Stats dir items w1 answers w2 ->
    Stats dir (item :: items) w (isFile :: answers) w2.

(** [stat] rejects with [e] for some item of the listing, after answering
    for the items before it. *)
Inductive StatRejects (dir : string)
  : list string -> World -> Thrown -> World -> Prop :=
| rejects_here item items w e w1 :
    stat_isFile (join dir item) w = (inl e, w1) ->
    StatRejects dir (item :: items) w e w1
| rejects_later item items w isFile w1 e w2 :
    stat_isFile (join dir item) w = (inr isFile, w1) ->
    StatRejects dir items w1 e w2 ->
    StatRejects dir (item :: items) w e w2.

End Directory.

End Views.

(** A second concrete world for the orchestrator, in which the generator
    and [stat] can fail too: the world is the list of names that fail. *)
Module Yard.

Import Effect.
Local Open Scope string_scope.

Definition join (dir item : string) : string := dir ++ "/" ++ item.

(** The stray entry [broken] is listed before the second fixture, and
    [dir.bench.ts] is a directory. *)
Definition readdir (dir : string) : M (list string) (list string) :=
  fun w => (inr ["a.bench.ts"; "broken"; "dir.bench.ts"; "b.bench.ts"], w).

Definition stat_isFile (p : string) : M (list string) bool :=
  fun w =>
    if existsb (fun name => JS.endsWith p ("/" ++ name)) w
    then (inl (ThrownError "ENOENT: no such file or directory"), w)
    else (inr (negb (JS.endsWith p "/dir.bench.ts")), w).

Definition execa (cmd : string) (args : list string) (cwd : string)
    (env : list (string * string)) : M (list string) unit :=
  fun w =>
    if existsb (fun name => JS.array_includes (cmd :: args) name) w
    then (inl (ThrownError "Command failed with exit code 1"), w)
    else (inr tt, w).

Definition run : list string -> list string -> _ :=
  Orchestrator.run "/bench" join readdir stat_isFile execa.

End Yard.

(* ===================================================================== *)
(** ** Checks by evaluation                                               *)
(* ===================================================================== *)

Module Checks.

Local Open Scope string_scope.

Example parseInt_decimal : JS.parseInt "  42px" = Some 42%Z.
Proof. reflexivity. Qed.

Example parseInt_negative : JS.parseInt "-3" = Some (-3)%Z.
Proof. reflexivity. Qed.

Example parseInt_hex : JS.parseInt "0x1f" = Some 31%Z.
Proof. reflexivity. Qed.

Example parseInt_not_a_number : JS.parseInt "abc" = None.
Proof. reflexivity. Qed.

Example split_example :
  JS.split "=" "--iterations=3=4" = ["--iterations"; "3"; "4"].
Proof. reflexivity. Qed.

Example includes_example :
  JS.includes "drizzle.query.bench.ts" "query" = true
  /\ JS.includes "prisma.schema.bench.ts" "query" = false.
Proof. split; reflexivity. Qed.

Example round2_example :
  JS.round2 (1234567 # 100000) = 1235%Z /\ JS.round2 (5 # 1000) = 1%Z.
Proof. split; reflexivity. Qed.

Example entries_order :
  map fst (JS.entries [("b.ts", 1); ("10", 2); ("a.ts", 3); ("9", 4)])
  = ["9"; "10"; "b.ts"; "a.ts"].
Proof. reflexivity. Qed.

End Checks.

(* ===================================================================== *)
(** ** Sorting and string-keyed objects                                   *)
(* ===================================================================== *)

Module JSFacts.

Local Open Scope list_scope.

Section SortFacts.
Variable A : Type.
Variable before : A -> A -> bool.

Lemma insert_perm x l : Permutation (JS.insert before x l) (x :: l).
Proof.
  induction l as [| y l IH]; simpl.
  - apply Permutation_refl.
  - destruct (before x y); [apply Permutation_refl |].
    apply perm_trans with (y :: x :: l); [| apply perm_swap].
    apply perm_skip, IH.
Qed.

Lemma sort_perm l : Permutation (JS.sort before l) l.
Proof.
  induction l as [| x l IH]; simpl.
  - apply perm_nil.
  - apply perm_trans with (x :: JS.sort before l);
      [apply insert_perm | apply perm_skip, IH].
Qed.


(** When the comparator orders the elements at hand by an integer key, the
    result is sorted by that key. *)
Variable key : A -> Z.



End SortFacts.

Section ObjFacts.
Variable V : Type.
Implicit Types (o : JS.Obj V) (k : string) (v : V).

Local Abbreviation keys o := (map fst o).

Lemma get_set_same o k v : JS.get (JS.set o k v) k = Some v.
Proof.
  induction o as [| [k' v'] o IH]; simpl.
  - rewrite String.eqb_refl. reflexivity.
  - destruct (String.eqb k' k) eqn:Hk; simpl.
    + rewrite String.eqb_refl. reflexivity.
    + rewrite Hk. exact IH.
Qed.

Lemma get_set_other o k k' v :
  k <> k' -> JS.get (JS.set o k v) k' = JS.get o k'.
Proof.
  intros Hne. induction o as [| [k0 v0] o IH]; simpl.
  - apply String.eqb_neq in Hne. rewrite Hne. reflexivity.
  - destruct (String.eqb k0 k) eqn:Hk; simpl.
    + apply String.eqb_eq in Hk. subst k0.
      apply String.eqb_neq in Hne. rewrite Hne. reflexivity.
    + destruct (String.eqb k0 k'); [reflexivity | exact IH].
Qed.

Lemma get_update_same o k f :
  JS.get (JS.update o k f) k = option_map f (JS.get o k).
Proof.
  induction o as [| [k' v'] o IH]; simpl; [reflexivity |].
  destruct (String.eqb k' k) eqn:Hk; simpl; rewrite Hk; [reflexivity | exact IH].
Qed.

Lemma get_update_other o k k' f :
  k <> k' -> JS.get (JS.update o k f) k' = JS.get o k'.
Proof.
  intros Hne. induction o as [| [k0 v0] o IH]; simpl; [reflexivity |].
  destruct (String.eqb k0 k) eqn:Hk; simpl.
  - apply String.eqb_eq in Hk. subst k0.
    apply String.eqb_neq in Hne. rewrite Hne. reflexivity.
  - destruct (String.eqb k0 k'); [reflexivity | exact IH].
Qed.

Lemma keys_update o k f : keys (JS.update o k f) = keys o.
Proof.
  induction o as [| [k' v'] o IH]; simpl; [reflexivity |].
  destruct (String.eqb k' k); simpl; [reflexivity | rewrite IH; reflexivity].
Qed.

Lemma keys_set_In o k v k' :
  In k' (keys (JS.set o k v)) <-> k' = k \/ In k' (keys o).
Proof.
  induction o as [| [k0 v0] o IH]; simpl.
  - intuition.
  - destruct (String.eqb k0 k) eqn:Hk; simpl.
    + apply String.eqb_eq in Hk. subst k0. intuition.
    + rewrite IH. intuition.
Qed.

Lemma keys_set_NoDup o k v : NoDup (keys o) -> NoDup (keys (JS.set o k v)).
Proof.
  induction o as [| [k0 v0] o IH]; simpl; intros Hnd.
  - constructor; [intros [] | constructor].
  - inversion Hnd as [| k1 l Hnotin Hnd']; subst.
    destruct (String.eqb k0 k) eqn:Hk; simpl.
    + apply String.eqb_eq in Hk. subst k0. constructor; assumption.
    + constructor; [| apply IH, Hnd'].
      rewrite keys_set_In. intros [-> | Hin]; [| contradiction].
      rewrite String.eqb_refl in Hk. discriminate.
Qed.

Lemma get_In o k v : JS.get o k = Some v -> In (k, v) o.
Proof.
  induction o as [| [k' v'] o IH]; simpl; [discriminate |].
  destruct (String.eqb k' k) eqn:Hk.
  - apply String.eqb_eq in Hk. intros [= ->]. left. congruence.
  - intros H. right. apply IH, H.
Qed.

Lemma In_get o k v : NoDup (keys o) -> In (k, v) o -> JS.get o k = Some v.
Proof.
  induction o as [| [k' v'] o IH]; simpl; intros Hnd Hin; [contradiction |].
  inversion Hnd as [| k1 l Hnotin Hnd']; subst.
  destruct Hin as [[= -> ->] | Hin].
  - rewrite String.eqb_refl. reflexivity.
  - destruct (String.eqb k' k) eqn:Hk; [| apply IH; assumption].
    apply String.eqb_eq in Hk. subst k'. exfalso. apply Hnotin.
    change k with (fst (k, v)). apply in_map, Hin.
Qed.

(** [Object.entries] lists every property once. *)
Lemma entries_perm o : Permutation (JS.entries o) o.
Proof.
  unfold JS.entries.
  apply perm_trans with
    (filter (JS.is_index (V:=V)) o
     ++ filter (fun kv => negb (JS.is_index kv)) o).
  - apply Permutation_app_tail, sort_perm.
  - induction o as [| kv o IH]; simpl; [apply perm_nil |].
    destruct (JS.is_index kv); simpl.
    + apply perm_skip, IH.
    + apply Permutation_sym, Permutation_cons_app, Permutation_sym, IH.
Qed.

Lemma entries_In o kv : In kv (JS.entries o) <-> In kv o.
Proof.
  split; apply Permutation_in;
    [apply entries_perm | apply Permutation_sym, entries_perm].
Qed.

End ObjFacts.

End JSFacts.

(* ===================================================================== *)
(** ** The prober                                                         *)
(* ===================================================================== *)

Module ProberFacts.

Import Effect Measure.
Local Open Scope string_scope.

Section Facts.
Variable World : Type.
Variables CompilerOptions Program Diagnostic : Type.
Variable path_resolve : string -> string.
Variable fs_existsSync : World -> string -> bool.
Variable performance_now : World -> Q * World.
Variable ts_findConfigFile : M World (option string).
Variable ts_readOptions : string -> M World CompilerOptions.
Variable ts_createProgram : list string -> CompilerOptions -> M World Program.
Variable getSemanticDiagnostics : Program -> M World (list Diagnostic).
Variable getSyntacticDiagnostics : Program -> M World (list Diagnostic).
Variable getGlobalDiagnostics : Program -> M World (list Diagnostic).

Local Abbreviation measure :=
  (measureTypeChecking path_resolve fs_existsSync performance_now
     ts_findConfigFile ts_readOptions ts_createProgram
     getSemanticDiagnostics getSyntacticDiagnostics getGlobalDiagnostics).
Local Abbreviation body :=
  (try_block performance_now ts_findConfigFile ts_readOptions
     ts_createProgram getSemanticDiagnostics getSyntacticDiagnostics
     getGlobalDiagnostics).
Local Abbreviation setup' :=
  (setup ts_findConfigFile ts_readOptions ts_createProgram).
Local Abbreviation collect' :=
  (collect getSemanticDiagnostics getSyntacticDiagnostics
     getGlobalDiagnostics).
Local Abbreviation clock' := (clock performance_now).
Local Abbreviation Monotonic :=
  (MonotonicClock performance_now ts_findConfigFile ts_readOptions
     ts_createProgram getSemanticDiagnostics getSyntacticDiagnostics
     getGlobalDiagnostics).

(** How the [try] block can end. *)
Lemma try_block_cases fileName fullPath startTotal w0 :
  (exists e w1,
      setup' fullPath w0 = (inl e, w1)
      /\ body fileName fullPath startTotal w0 = (inl e, w1))
  \/ (exists program wa wb e w1,
      setup' fullPath w0 = (inr program, wa)
      /\ performance_now wa = (clock' wa, wb)
      /\ collect' program wb = (inl e, w1)
      /\ body fileName fullPath startTotal w0 = (inl e, w1))
  \/ (exists program wa wb diagnostics wc wd w1,
      setup' fullPath w0 = (inr program, wa)
      /\ performance_now wa = (clock' wa, wb)
      /\ collect' program wb = (inr diagnostics, wc)
      /\ performance_now wc = (clock' wc, wd)
      /\ performance_now wd = (clock' wd, w1)
      /\ body fileName fullPath startTotal w0 =
         (inr {| file := fileName;
                 typeCheckTime := clock' wc - clock' wa;
                 totalTime := clock' wd - startTotal;
                 diagnosticsCount := length diagnostics;
                 success := true;
                 error := None |}, w1)).
Proof.
  unfold try_block, bind, now, clock.
  destruct (setup' fullPath w0) as [[e | program] wa] eqn:Hsetup.
  - left. eauto.
  - right.
    destruct (performance_now wa) as [t1 wb] eqn:Hb.
    destruct (collect' program wb) as [[e | diagnostics] wc] eqn:Hcollect.
    + left. exists program, wa, wb, e, wc.
      rewrite Hb. simpl. repeat split; (reflexivity || assumption).
    + right.
      destruct (performance_now wc) as [t2 wd] eqn:Hd.
      destruct (performance_now wd) as [t3 w1] eqn:He.
      exists program, wa, wb, diagnostics, wc, wd, w1.
      rewrite Hb, Hd, He. simpl. repeat split; (reflexivity || assumption).
Qed.

(** Monotonicity of the clock goes through sequencing. *)
Lemma advances_bind A B (m : M World A) (k : A -> M World B) :
  advances performance_now m ->
  (forall a, advances performance_now (k a)) ->
  advances performance_now (bind m k).
Proof.
  intros Hm Hk w. unfold bind.
  specialize (Hm w). destruct (m w) as [[e | a] w']; simpl in *.
  - exact Hm.
  - eapply Qle_trans; [exact Hm | apply Hk].
Qed.

Lemma advances_ret A (a : A) : advances (World := World) performance_now (ret a).
Proof. intros w. apply Qle_refl. Qed.

Lemma advances_throw A e :
  advances (World := World) (A := A) performance_now (throw e).
Proof. intros w. apply Qle_refl. Qed.

Lemma advances_setup fullPath :
  Monotonic -> advances performance_now (setup' fullPath).
Proof.
  intros H. unfold setup.
  apply advances_bind; [apply (mono_findConfigFile H) |].
  intros [[| c p] |]; try apply advances_throw.
  apply advances_bind; [apply (mono_readOptions H) |].
  intros o. apply (mono_createProgram H).
Qed.

Lemma advances_collect program :
  Monotonic -> advances performance_now (collect' program).
Proof.
  intros H. unfold collect.
  apply advances_bind; [apply (mono_semantic H) |]. intros semantic.
  apply advances_bind; [apply (mono_syntactic H) |]. intros syntactic.
  apply advances_bind; [apply (mono_global H) |]. intros global.
  apply advances_ret.
Qed.

(** The prober on an existing file, unfolded once. *)
Lemma measure_existing fileName w :
  fs_existsSync w (path_resolve fileName) = true ->
  measure fileName w =
  match body fileName (path_resolve fileName) (clock' w)
          (snd (performance_now w)) with
  | (inr result, w1) => (result, w1)
  | (inl e, w1) =>
      (caught fileName (clock' w) (clock' w1) e, snd (performance_now w1))
  end.
Proof.
  intros Hex. unfold measureTypeChecking, clock, caught. rewrite Hex. simpl.
  destruct (performance_now w) as [startTotal w0]. simpl.
  destruct (try_block _ _ _ _ _ _ _ _ _ _ _) as [[e | result] w1]; auto.
  destruct (performance_now w1) as [endTotal w2]. reflexivity.
Qed.

Local Abbreviation Constructed' :=
  (Constructed ts_findConfigFile ts_readOptions ts_createProgram).
Local Abbreviation Raised' :=
  (Raised performance_now ts_findConfigFile ts_readOptions ts_createProgram
     getSemanticDiagnostics getSyntacticDiagnostics getGlobalDiagnostics).

Lemma setup_returns fullPath w0 program wa :
  setup' fullPath w0 = (inr program, wa) <-> Constructed' fullPath w0 program wa.
Proof.
  unfold setup, bind, throw, Constructed. split.
  - destruct (ts_findConfigFile w0) as [[e | [[| c p] |]] w1] eqn:Hfind;
      try discriminate.
    destruct (ts_readOptions (String c p) w1) as [[e | options] w2] eqn:Hopt;
      try discriminate.
    intros Hcreate. exists (String c p), w1, options, w2.
    repeat split; auto. discriminate.
  - intros (configPath & w1 & options & w2 & Hfind & Hne & Hopt & Hcreate).
    rewrite Hfind. destruct configPath as [| c p]; [congruence |].
    rewrite Hopt. exact Hcreate.
Qed.

Lemma setup_throws fullPath w0 e w1 :
  setup' fullPath w0 = (inl e, w1) <->
  (ts_findConfigFile w0 = (inl e, w1)
   \/ (exists configPath,
          ts_findConfigFile w0 = (inr configPath, w1)
          /\ (configPath = None \/ configPath = Some EmptyString)
          /\ e = ThrownError "Could not find a valid 'tsconfig.json'.")
   \/ (exists configPath wa,
          ts_findConfigFile w0 = (inr (Some configPath), wa)
          /\ configPath <> EmptyString
          /\ ts_readOptions configPath wa = (inl e, w1))
   \/ (exists configPath wa options wb,
          ts_findConfigFile w0 = (inr (Some configPath), wa)
          /\ configPath <> EmptyString
          /\ ts_readOptions configPath wa = (inr options, wb)
          /\ ts_createProgram [fullPath] options wb = (inl e, w1))).
Proof.
  unfold setup, bind, throw. split.
  - destruct (ts_findConfigFile w0) as [[e' | [[| c p] |]] wa] eqn:Hfind.
    + intros [= -> ->]. auto.
    + intros [= <- ->]. right; left. exists (Some EmptyString). auto.
    + destruct (ts_readOptions (String c p) wa) as [[e' | options] wb] eqn:Hopt.
      * intros [= -> ->]. right; right; left.
        exists (String c p), wa. repeat split; auto. discriminate.
      * intros Hcreate. right; right; right.
        exists (String c p), wa, options, wb. repeat split; auto. discriminate.
    + intros [= <- ->]. right; left. exists None. auto.
  - intros [Hfind | [(configPath & Hfind & Hnone & ->)
                    | [(configPath & wa & Hfind & Hne & Hopt)
                      | (configPath & wa & options & wb
                         & Hfind & Hne & Hopt & Hcreate)]]];
      rewrite Hfind; auto.
    + destruct Hnone as [-> | ->]; reflexivity.
    + destruct configPath; [congruence |]. rewrite Hopt. reflexivity.
    + destruct configPath; [congruence |]. rewrite Hopt. exact Hcreate.
Qed.

Lemma collect_throws program wb e w1 :
  collect' program wb = (inl e, w1) <->
  (getSemanticDiagnostics program wb = (inl e, w1)
   \/ (exists semantic wc,
          getSemanticDiagnostics program wb = (inr semantic, wc)
          /\ getSyntacticDiagnostics program wc = (inl e, w1))
   \/ (exists semantic wc syntactic wd,
          getSemanticDiagnostics program wb = (inr semantic, wc)
          /\ getSyntacticDiagnostics program wc = (inr syntactic, wd)
          /\ getGlobalDiagnostics program wd = (inl e, w1))).
Proof.
  unfold collect, bind, ret. split.
  - destruct (getSemanticDiagnostics program wb) as [[e1 | semantic] wc] eqn:H1.
    + intros [= -> ->]. auto.
    + destruct (getSyntacticDiagnostics program wc)
        as [[e2 | syntactic] wd] eqn:H2.
      * intros [= -> ->]. right; left. eauto.
      * destruct (getGlobalDiagnostics program wd)
          as [[e3 | global] we] eqn:H3; [| discriminate].
        intros [= -> ->]. right; right. exists semantic, wc, syntactic, wd. auto.
  - intros [H1 | [(semantic & wc & H1 & H2)
                 | (semantic & wc & syntactic & wd & H1 & H2 & H3)]];
      rewrite H1; auto; rewrite H2; auto; rewrite H3; auto.
Qed.

(** The [try] block throws exactly when an error is raised. *)
Lemma try_block_throws fileName fullPath startTotal w0 e w1 :
  body fileName fullPath startTotal w0 = (inl e, w1) <-> Raised' fullPath w0 e w1.
Proof.
  split.
  - intros Hbody.
    destruct (try_block_cases fileName fullPath startTotal w0)
      as [(e' & w' & Hsetup & Hb)
         | [(program & wa & wb & e' & w' & Hsetup & Hnow & Hcollect & Hb)
           | (program & wa & wb & ds & wc & wd & w' & _ & _ & _ & _ & _ & Hb)]];
      rewrite Hb in Hbody; inversion Hbody; subst.
    + apply setup_throws in Hsetup.
      destruct Hsetup as [Hfind | [(configPath & Hfind & Hnone & ->)
                    | [(configPath & wa & Hfind & Hne & Hopt)
                      | (configPath & wa & options & wb
                         & Hfind & Hne & Hopt & Hcreate)]]].
      * apply raised_by_lookup; assumption.
      * eapply raised_no_config; eauto.
      * eapply raised_by_options; eauto.
      * eapply raised_by_construction; eauto.
    + apply setup_returns in Hsetup.
      assert (Hwb : wb = snd (performance_now wa)) by (rewrite Hnow; reflexivity).
      subst wb. apply collect_throws in Hcollect.
      destruct Hcollect as [H1 | [(semantic & wc & H1 & H2)
                 | (semantic & wc & syntactic & wd & H1 & H2 & H3)]].
      * eapply raised_by_semantic; eauto.
      * eapply raised_by_syntactic; eauto.
      * eapply raised_by_global; eauto.
  - assert (Hsetup_fail : forall e w1,
               setup' fullPath w0 = (inl e, w1) ->
               body fileName fullPath startTotal w0 = (inl e, w1)).
    { intros e' w' H. unfold try_block, bind. rewrite H. reflexivity. }
    assert (Hcollect_fail : forall program wa e w1,
               Constructed' fullPath w0 program wa ->
               collect' program (snd (performance_now wa)) = (inl e, w1) ->
               body fileName fullPath startTotal w0 = (inl e, w1)).
    { intros program wa e' w' Hc H. apply setup_returns in Hc.
      unfold try_block, bind, now. rewrite Hc.
      destruct (performance_now wa) as [t wb]. simpl in H. rewrite H.
      reflexivity. }
    intros [Hfind | configPath Hfind Hnone He | configPath wa Hfind Hne Hopt
           | configPath wa options wb Hfind Hne Hopt Hcreate
           | program wa Hc H1 | program wa semantic wb Hc H1 H2
           | program wa semantic wb syntactic wc Hc H1 H2 H3].
    + apply Hsetup_fail, setup_throws. auto.
    + apply Hsetup_fail, setup_throws. right; left. eauto.
    + apply Hsetup_fail, setup_throws. right; right; left. eauto.
    + apply Hsetup_fail, setup_throws. right; right; right.
      exists configPath, wa, options, wb. auto.
    + eapply Hcollect_fail; eauto. apply collect_throws. auto.
    + eapply Hcollect_fail; eauto. apply collect_throws. right; left. eauto.
    + eapply Hcollect_fail; eauto. apply collect_throws. right; right.
      exists semantic, wb, syntactic, wc. auto.
Qed.

Lemma endsWith_app (a b : string) : JS.endsWith (a ++ b) b = true.
Proof.
  induction a as [| c a IH]; simpl.
  - destruct b; simpl; rewrite ?String.eqb_refl, ?Ascii.eqb_refl; reflexivity.
  - rewrite IH. apply orb_true_r.
Qed.

(** C5: when the resolved path of the input does not exist, the prober
    returns a measurement (nothing is thrown, the world is untouched) with
    [success = false], both timings 0, and an error message that is not
    empty and ends with the resolved path. *)
Theorem C5_missing_file_gives_failed_measurement (fileName : string) (w : World) :
  fs_existsSync w (path_resolve fileName) = false ->
  exists message,
    measure fileName w =
      ({| file := fileName;
          typeCheckTime := 0;
          totalTime := 0;
          diagnosticsCount := 0;
          success := false;
          error := Some message |}, w)
    /\ message = "File not found: " ++ path_resolve fileName
    /\ message <> EmptyString
    /\ JS.endsWith message (path_resolve fileName) = true.
Proof.
  intros Hmissing.
  exists ("File not found: " ++ path_resolve fileName). repeat split.
  - unfold measureTypeChecking. rewrite Hmissing. reflexivity.
  - discriminate.
  - apply endsWith_app.
Qed.

(** C6: for an existing file, an error raised during configuration
    lookup, program construction or diagnostic collection (the missing
    configuration file included) is caught: the prober returns a
    measurement with [success = false] whose [error] is the error's text.
    A failed measurement of an existing file always comes from such an
    error, and the prober returns a measurement in every case. *)
Theorem C6_raised_errors_become_failed_measurements
    (fileName : string) (w : World) :
  fs_existsSync w (path_resolve fileName) = true ->
  let fullPath := path_resolve fileName in
  let w0 := snd (performance_now w) in
  let result := fst (measure fileName w) in
  (forall e w1,
      Raised' fullPath w0 e w1 ->
      measure fileName w =
        ({| file := fileName;
            typeCheckTime := 0;
            totalTime := clock' w1 - clock' w;
            diagnosticsCount := 0;
            success := false;
            error := Some (thrown_text e) |}, snd (performance_now w1)))
  /\ (forall w1,
      ts_findConfigFile w0 = (inr None, w1) ->
      success result = false
      /\ error result = Some "Could not find a valid 'tsconfig.json'.")
  /\ (success result = false -> exists e w1, Raised' fullPath w0 e w1).
Proof.
  intros Hex fullPath w0 result.
  assert (Hraised : forall e w1,
             Raised' fullPath w0 e w1 ->
             measure fileName w =
               (caught fileName (clock' w) (clock' w1) e,
                snd (performance_now w1))).
  { intros e w1 Hr. rewrite (measure_existing Hex).
    apply (try_block_throws fileName fullPath (clock' w)) in Hr.
    fold fullPath w0. rewrite Hr. reflexivity. }
  split; [exact Hraised | split].
  - intros w1 Hfind. subst result.
    rewrite (Hraised (ThrownError "Could not find a valid 'tsconfig.json'.") w1).
    + split; reflexivity.
    + eapply raised_no_config; eauto.
  - subst result. rewrite (measure_existing Hex). fold fullPath w0.
    destruct (try_block_cases fileName fullPath (clock' w) w0)
      as [(e & w1 & _ & Hb)
         | [(program & wa & wb & e & w1 & _ & _ & _ & Hb)
           | (program & wa & wb & ds & wc & wd & w1 & _ & _ & _ & _ & _ & Hb)]];
      rewrite Hb; simpl; intros Hfail.
    + exists e, w1. apply (try_block_throws fileName fullPath (clock' w)), Hb.
    + exists e, w1. apply (try_block_throws fileName fullPath (clock' w)), Hb.
    + discriminate.
Qed.

(** C8: with a monotonic clock, every measurement the prober returns has
    [totalTime >= typeCheckTime >= 0]; in a successful one the time from
    the start of the probe to the end of program construction (which
    covers configuration lookup) is part of [totalTime] on top of
    [typeCheckTime]. *)
Theorem C8_total_time_covers_type_check_time (fileName : string) (w : World) :
  Monotonic ->
  let result := fst (measure fileName w) in
  (0 <= typeCheckTime result /\ typeCheckTime result <= totalTime result)
  /\ (success result = true ->
      exists program wa,
        Constructed' (path_resolve fileName) (snd (performance_now w))
                     program wa
        /\ 0 <= clock' wa - clock' w
        /\ typeCheckTime result + (clock' wa - clock' w) <= totalTime result).
Proof.
  intros Hmono result. subst result.
  destruct (fs_existsSync w (path_resolve fileName)) eqn:Hex.
  - rewrite (measure_existing Hex).
    set (fullPath := path_resolve fileName).
    set (w0 := snd (performance_now w)).
    assert (H0 : clock' w <= clock' w0) by apply (mono_now Hmono).
    destruct (try_block_cases fileName fullPath (clock' w) w0)
      as [(e & w1 & Hsetup & Hb)
         | [(program & wa & wb & e & w1 & Hsetup & Hnow & Hcollect & Hb)
           | (program & wa & wb & ds & wc & wd & w1
              & Hsetup & Hnow & Hcollect & Hnow2 & Hnow3 & Hb)]];
      rewrite Hb; simpl.
    + pose proof (advances_setup fullPath Hmono w0) as H1.
      rewrite Hsetup in H1. simpl in H1.
      split; [split; lra | discriminate].
    + pose proof (advances_setup fullPath Hmono w0) as H1.
      rewrite Hsetup in H1. simpl in H1.
      pose proof (mono_now Hmono wa) as H2. rewrite Hnow in H2. simpl in H2.
      pose proof (advances_collect program Hmono wb) as H3.
      rewrite Hcollect in H3. simpl in H3.
      split; [split; lra | discriminate].
    + pose proof (advances_setup fullPath Hmono w0) as H1.
      rewrite Hsetup in H1. simpl in H1.
      pose proof (mono_now Hmono wa) as H2. rewrite Hnow in H2. simpl in H2.
      pose proof (advances_collect program Hmono wb) as H3.
      rewrite Hcollect in H3. simpl in H3.
      pose proof (mono_now Hmono wc) as H4. rewrite Hnow2 in H4. simpl in H4.
      split; [split; lra |].
      intros _. exists program, wa.
      split; [apply setup_returns; exact Hsetup | split; lra].
  - unfold measureTypeChecking. rewrite Hex. simpl.
    split; [split; lra | discriminate].
Qed.

End Facts.

End ProberFacts.

(* ===================================================================== *)
(** ** The runner: which invocations of the prober happen                 *)
(* ===================================================================== *)

Module RunnerFacts.

Import Effect Measure.
Local Open Scope string_scope.
Local Open Scope list_scope.

Lemma measured_segment file n segment :
  Measured file n segment -> Segment (Z.of_nat n) file segment.
Proof.
  induction 1 as [| n result Hfail | n result rest Hok Hrest IH].
  - repeat split.
    + constructor.
    + simpl. lia.
    + intros before call after Heq. destruct before; discriminate.
    + simpl. lia.
  - repeat split.
    + repeat constructor.
    + simpl length. lia.
    + intros before call after Heq _.
      destruct before as [| x before]; simpl in Heq.
      * injection Heq as _ <-. reflexivity.
      * injection Heq as _ Heq. destruct before; discriminate.
    + intros _. exists [], (file, result). auto.
  - destruct IH as (Hfiles & Hlen & Hstop & Hshort). repeat split.
    + constructor; auto.
    + simpl length. lia.
    + intros before call after Heq Hfail.
      destruct before as [| x before]; simpl in Heq.
      * injection Heq as <- _. simpl in Hfail. congruence.
      * injection Heq as _ Heq. eapply Hstop; eauto.
    + intros Hlt. destruct Hshort as (before & call & -> & Hfail).
      * simpl length in Hlt. lia.
      * exists ((file, result) :: before), call. auto.
Qed.

Section Facts.
Variable World : Type.
Variables CompilerOptions Program Diagnostic : Type.
Variable path_resolve : string -> string.
Variable fs_existsSync : World -> string -> bool.
Variable performance_now : World -> Q * World.
Variable ts_findConfigFile : M World (option string).
Variable ts_readOptions : string -> M World CompilerOptions.
Variable ts_createProgram : list string -> CompilerOptions -> M World Program.
Variable getSemanticDiagnostics : Program -> M World (list Diagnostic).
Variable getSyntacticDiagnostics : Program -> M World (list Diagnostic).
Variable getGlobalDiagnostics : Program -> M World (list Diagnostic).

Local Abbreviation probe' :=
  (probe path_resolve fs_existsSync performance_now
     ts_findConfigFile ts_readOptions ts_createProgram
     getSemanticDiagnostics getSyntacticDiagnostics getGlobalDiagnostics).
Local Abbreviation warm_up' :=
  (warm_up path_resolve fs_existsSync performance_now
     ts_findConfigFile ts_readOptions ts_createProgram
     getSemanticDiagnostics getSyntacticDiagnostics getGlobalDiagnostics).
Local Abbreviation iterate' :=
  (iterate path_resolve fs_existsSync performance_now
     ts_findConfigFile ts_readOptions ts_createProgram
     getSemanticDiagnostics getSyntacticDiagnostics getGlobalDiagnostics).
Local Abbreviation measure_all' :=
  (measure_all path_resolve fs_existsSync performance_now
     ts_findConfigFile ts_readOptions ts_createProgram
     getSemanticDiagnostics getSyntacticDiagnostics getGlobalDiagnostics).
Local Abbreviation runBenchmark' :=
  (runBenchmark path_resolve fs_existsSync performance_now
     ts_findConfigFile ts_readOptions ts_createProgram
     getSemanticDiagnostics getSyntacticDiagnostics getGlobalDiagnostics).
Local Abbreviation main' :=
  (main path_resolve fs_existsSync performance_now
     ts_findConfigFile ts_readOptions ts_createProgram
     getSemanticDiagnostics getSyntacticDiagnostics getGlobalDiagnostics).

Lemma probe_calls file (st : State World) :
  calls (snd (probe' file st)) = calls st ++ [(file, fst (probe' file st))].
Proof.
  unfold probe. destruct (measureTypeChecking _ _ _ _ _ _ _ _ _ _ _).
  reflexivity.
Qed.

Lemma warm_up_calls files : forall st : State World,
  exists warm,
    calls (warm_up' files st) = calls st ++ warm /\ map fst warm = files.
Proof.
  induction files as [| file rest IH]; intros st; simpl.
  - exists []. rewrite app_nil_r. auto.
  - destruct (IH (snd (probe' file st))) as (warm & Hcalls & Hfiles).
    exists ((file, fst (probe' file st)) :: warm).
    rewrite Hcalls, probe_calls, <- app_assoc. simpl. rewrite Hfiles. auto.
Qed.

(** The iterations of one fixture: the invocations made, and what they
    leave under the fixture's key (the other keys are untouched). *)
Lemma iterate_spec n file : forall results (st : State World),
  exists segment,
    calls (snd (iterate' n file results st)) = calls st ++ segment
    /\ Measured file n segment
    /\ JS.get (fst (iterate' n file results st)) file
       = option_map (fun rs => rs ++ map snd segment) (JS.get results file)
    /\ (forall k, k <> file ->
                  JS.get (fst (iterate' n file results st)) k
                  = JS.get results k)
    /\ map fst (fst (iterate' n file results st)) = map fst results.
Proof.
  induction n as [| n IH]; intros results st; simpl.
  - exists []. rewrite app_nil_r. repeat split; try constructor.
    destruct (JS.get results file); simpl; [rewrite app_nil_r |]; reflexivity.
  - pose proof (probe_calls file st) as Hprobe.
    destruct (probe' file st) as [result st'] eqn:Hp. simpl in Hprobe.
    destruct (success result) eqn:Hok; simpl.
    + destruct (IH (JS.update results file (fun rs => rs ++ [result])) st')
        as (segment & Hcalls & Hseg & Hget & Hother & Hkeys).
      exists ((file, result) :: segment).
      rewrite Hcalls, Hprobe, <- app_assoc.
      repeat split; [constructor; assumption | | |].
      * rewrite Hget, JSFacts.get_update_same.
        destruct (JS.get results file); simpl; [| reflexivity].
        rewrite <- app_assoc. reflexivity.
      * intros k Hk. rewrite Hother by exact Hk.
        apply JSFacts.get_update_other. congruence.
      * rewrite Hkeys. apply JSFacts.keys_update.
    + exists [(file, result)].
      repeat split; [exact Hprobe | constructor; assumption | | |].
      * apply JSFacts.get_update_same.
      * intros k Hk. apply JSFacts.get_update_other. congruence.
      * apply JSFacts.keys_update.
Qed.

(** The measured phase: one segment of invocations per entry of the file
    list, and under every key the results of a segment made for it. *)
Lemma measure_all_spec iterations files : forall results (st : State World),
  NoDup (map fst results) ->
  exists segments,
    calls (snd (measure_all' iterations files results st))
      = calls st ++ concat segments
    /\ Forall2 (fun file segment =>
                  Measured file (Z.to_nat iterations) segment)
               files segments
    /\ NoDup (map fst (fst (measure_all' iterations files results st)))
    /\ (forall k, In k (map fst (fst (measure_all' iterations files results st)))
                  <-> In k files \/ In k (map fst results))
    /\ (forall k v,
           JS.get (fst (measure_all' iterations files results st)) k = Some v ->
           (exists segment,
               In (k, segment) (combine files segments)
               /\ v = map snd segment)
           \/ (~ In k files /\ JS.get results k = Some v)).
Proof.
  induction files as [| file rest IH]; intros results st Hnd; simpl.
  - exists []. simpl. rewrite app_nil_r. repeat split; auto; tauto.
  - destruct (iterate_spec (Z.to_nat iterations) file
                (JS.set results file []) st)
      as (segment & Hcalls & Hseg & Hget & Hother & Hkeys).
    destruct (iterate' _ file _ st) as [results1 st1]. simpl in *.
    assert (Hnd1 : NoDup (map fst results1))
      by (rewrite Hkeys; apply JSFacts.keys_set_NoDup, Hnd).
    destruct (IH results1 st1 Hnd1)
      as (segments & Hrest & Hall & Hnd2 & Hdom & Hres).
    destruct (measure_all' iterations rest results1 st1) as [results2 st2].
    simpl in *.
    exists (segment :: segments). simpl.
    rewrite Hrest, Hcalls, <- app_assoc.
    repeat split; auto.
    + rewrite Hdom, Hkeys, JSFacts.keys_set_In. intuition.
    + rewrite Hdom, Hkeys, JSFacts.keys_set_In. intuition.
    + intros k v Hk. destruct (Hres k v Hk) as [(sg & Hin & ->) | [Hnot Hk1]].
      * left. exists sg. auto.
      * destruct (string_dec k file) as [-> | Hne].
        -- left. exists segment. split; [left; reflexivity |].
           rewrite Hget, JSFacts.get_set_same in Hk1. simpl in Hk1. congruence.
        -- right. split; [intros [Heq | Hin]; [congruence | contradiction] |].
           rewrite Hother, JSFacts.get_set_other in Hk1 by congruence.
           exact Hk1.
Qed.

(** C4: a run first invokes the prober once for each entry of the fixture
    list, in order (the warm-up pass, whose results the runner drops), and
    then goes through the fixtures again, one segment of invocations per
    entry: at most [iterations] of them, none after a failed one, and
    fewer than [iterations] only when the last one failed, so that a
    failure in one fixture's segment never shortens another's. *)
Theorem C4_probe_invocations_of_a_run
    (files : list string) (iterations : Z) (st : State World) :
  exists warm segments,
    calls (snd (runBenchmark' files iterations st))
      = calls st ++ warm ++ concat segments
    /\ map fst warm = files
    /\ Forall2 (Segment iterations) files segments.
Proof.
  unfold runBenchmark.
  destruct (warm_up_calls files st) as (warm & Hwarm & Hfiles).
  destruct (measure_all_spec iterations files [] (warm_up' files st)
              (NoDup_nil _))
    as (segments & Hcalls & Hsegments & _).
  destruct (measure_all' iterations files [] (warm_up' files st))
    as [results st2].
  exists warm, segments. simpl in *.
  rewrite Hcalls, Hwarm, <- app_assoc. repeat split; auto.
  clear - Hsegments.
  induction Hsegments as [| file segment files segments Hseg _ IH];
    constructor; auto.
  apply measured_segment in Hseg.
  destruct Hseg as (Hfile & Hlen & Hstop & Hshort).
  repeat split; auto.
  - lia.
  - intros Hlt. apply Hshort. lia.
Qed.

(** The summary table of a run: one row per distinct file, and every row
    is computed by [summarize] from the results of a segment of measured
    invocations made for its file. *)
Lemma summary_of_run (files : list string) (iterations : Z) (st : State World) :
  exists segments summaryData,
    fst (runBenchmark' files iterations st) = comparison summaryData
    /\ Forall2 (fun file segment =>
                  Measured file (Z.to_nat iterations) segment)
               files segments
    /\ NoDup (map File summaryData)
    /\ (forall file, In file (map File summaryData) <-> In file files)
    /\ (forall row,
           In row summaryData ->
           exists segment,
             In (File row, segment) (combine files segments)
             /\ row = summarize (File row) (map snd segment)).
Proof.
  unfold runBenchmark.
  destruct (measure_all_spec iterations files [] (warm_up' files st)
              (NoDup_nil _))
    as (segments & _ & Hsegments & Hnd & Hdom & Hres).
  destruct (measure_all' iterations files [] (warm_up' files st))
    as [results st2]. simpl in *.
  exists segments, (summary results).
  assert (Hfile : forall file rs, File (summarize file rs) = file).
  { intros file [| r rs]; simpl; [reflexivity |].
    destruct (success r); reflexivity. }
  assert (Hfiles : map File (summary results) = map fst (JS.entries results)).
  { unfold summary. rewrite map_map. apply map_ext. intros [k v]. apply Hfile. }
  repeat split; auto.
  - rewrite Hfiles.
    apply (Permutation_NoDup
             (Permutation_sym (Permutation_map fst (JSFacts.entries_perm results)))).
    exact Hnd.
  - rewrite Hfiles. intros Hin.
    apply (Permutation_in _ (Permutation_map fst (JSFacts.entries_perm results)))
      in Hin.
    apply Hdom in Hin. tauto.
  - rewrite Hfiles. intros Hin.
    apply (Permutation_in _ (Permutation_sym
             (Permutation_map fst (JSFacts.entries_perm results)))).
    apply Hdom. auto.
  - intros row Hrow. unfold summary in Hrow. apply in_map_iff in Hrow.
    destruct Hrow as ([k v] & <- & Hin). simpl. rewrite Hfile.
    rewrite JSFacts.entries_In in Hin.
    apply JSFacts.In_get in Hin; [| exact Hnd].
    destruct (Hres k v Hin) as [(segment & Hseg & ->) | [_ Habs]];
      [eauto | discriminate].
Qed.

(** A fixture's row is ERROR exactly when it has no measurement or its
    first measurement failed. *)
Lemma summarize_valid file fileResults :
  is_valid (summarize file fileResults) = true <->
  exists first rest, fileResults = first :: rest /\ success first = true.
Proof.
  destruct fileResults as [| first rest]; unfold summarize.
  - split; [discriminate | intros (f & r & Habs & _); discriminate].
  - destruct (success first) eqn:Hok; cbn [negb].
    + split; [eauto |]. intros _. unfold is_valid. cbn [Avg_Type_Check].
      match goal with |- context [JS.toFixed2 ?x] => destruct x end;
        reflexivity.
    + split; [discriminate | intros (f & r & [= <- <-] & Hs); congruence].
Qed.


End Facts.

End RunnerFacts.

(* ===================================================================== *)
(** ** The runner: the comparison table                                   *)
(* ===================================================================== *)

Module ComparisonFacts.

Import Measure.
Local Open Scope list_scope.


Lemma hundredths_eq (a b : Z) :
  inject_Z a / 100 == inject_Z b / 100 <-> a = b.
Proof.
  unfold Qeq, Qdiv, Qmult, Qinv, inject_Z. simpl. lia.
Qed.










(** Without a single valid row, [reduce] throws. *)
Lemma comparison_without_valid_rows (summaryData : list SummaryRow) :
  (1 < length summaryData)%nat ->
  filter is_valid summaryData = [] ->
  comparison summaryData = ReduceOfEmptyArray summaryData.
Proof.
  intros Hlen Hnone. unfold comparison.
  apply Nat.ltb_lt in Hlen. rewrite Hlen, Hnone. reflexivity.
Qed.

End ComparisonFacts.

(* ===================================================================== *)
(** ** The command line of the runner                                     *)
(* ===================================================================== *)

Module CommandLineFacts.

Import Effect Measure.
Local Open Scope string_scope.
Local Open Scope list_scope.

(** The part of a string before its first [=]. *)
Local Abbreviation cut v := (hd EmptyString (JS.split "=" v)).

Lemma cut_cons c s :
  cut (String c s) = if Ascii.eqb c "=" then EmptyString else String c (cut s).
Proof.
  simpl. destruct (Ascii.eqb c "="); [reflexivity |].
  destruct (JS.split "=" s); reflexivity.
Qed.

Lemma second_piece v :
  nth_error (JS.split "=" ("--iterations=" ++ v)) 1 = Some (cut v).
Proof.
  simpl. destruct v as [| c v]; [reflexivity |]. simpl.
  destruct (Ascii.eqb c "="); [reflexivity |].
  destruct (JS.split "=" v); reflexivity.
Qed.

Lemma trim_start_cut v : JS.trim_start (cut v) = cut (JS.trim_start v).
Proof.
  induction v as [| c v IH]; [reflexivity |].
  rewrite cut_cons. destruct (Ascii.eqb c "=") eqn:Hc.
  - apply Ascii.eqb_eq in Hc. subst c. reflexivity.
  - simpl JS.trim_start. destruct (JS.is_white_space c); [exact IH |].
    rewrite cut_cons, Hc. reflexivity.
Qed.

Lemma strip_sign_cut s :
  JS.strip_sign (cut s) = (fst (JS.strip_sign s), cut (snd (JS.strip_sign s))).
Proof.
  destruct s as [| c s]; [reflexivity |].
  rewrite cut_cons. destruct (Ascii.eqb c "=") eqn:Hc.
  - apply Ascii.eqb_eq in Hc. subst c. reflexivity.
  - unfold JS.strip_sign.
    destruct (Ascii.eqb c "-"); [reflexivity |].
    destruct (Ascii.eqb c "+"); [reflexivity |].
    cbn [fst snd]. rewrite cut_cons, Hc. reflexivity.
Qed.

Lemma strip_radix_cut s :
  JS.strip_radix (cut s) = (fst (JS.strip_radix s), cut (snd (JS.strip_radix s))).
Proof.
  destruct s as [| c s]; [reflexivity |].
  rewrite cut_cons. destruct (Ascii.eqb c "=") eqn:Hc.
  - apply Ascii.eqb_eq in Hc. subst c. destruct s; reflexivity.
  - destruct s as [| d s].
    + cbn [JS.strip_radix fst snd]. rewrite cut_cons, Hc. reflexivity.
    + rewrite (cut_cons d). destruct (Ascii.eqb d "=") eqn:Hd.
      * apply Ascii.eqb_eq in Hd. subst d. unfold JS.strip_radix.
        cbn [Ascii.eqb Bool.eqb orb]. rewrite andb_false_r. cbn [fst snd].
        rewrite !cut_cons, Hc. reflexivity.
      * unfold JS.strip_radix.
        destruct (Ascii.eqb c "0" && (Ascii.eqb d "x" || Ascii.eqb d "X"));
          cbn [fst snd]; [reflexivity |].
        rewrite !cut_cons, Hc, Hd. reflexivity.
Qed.

Lemma read_digits_cut radix s : forall acc,
  JS.read_digits radix acc (cut s) = JS.read_digits radix acc s.
Proof.
  induction s as [| c s IH]; intros acc; [reflexivity |].
  rewrite cut_cons. destruct (Ascii.eqb c "=") eqn:Hc.
  - apply Ascii.eqb_eq in Hc. subst c. reflexivity.
  - simpl. destruct (JS.digit_value radix c); [apply IH | reflexivity].
Qed.

(** [parseInt] stops at the first [=], so the second piece of the split
    argument reads like everything after the flag's name. *)
Lemma parseInt_cut v : JS.parseInt (cut v) = JS.parseInt v.
Proof.
  unfold JS.parseInt.
  rewrite trim_start_cut, strip_sign_cut.
  destruct (JS.strip_sign (JS.trim_start v)) as [negative s1]. simpl.
  rewrite strip_radix_cut.
  destruct (JS.strip_radix s1) as [radix s2]. simpl.
  rewrite read_digits_cut. reflexivity.
Qed.

Lemma parse_args_with_flag (args : list string) (v : string) :
  JS.find is_iterations_arg args = Some ("--iterations=" ++ v)%string ->
  parse_args args =
    (filter (fun arg => negb (is_iterations_arg arg)) args,
     JS.num_or (JS.parseInt v) 5).
Proof.
  intros Hfind. unfold parse_args. rewrite Hfind, second_piece.
  simpl JS.parseInt_opt. rewrite parseInt_cut. reflexivity.
Qed.

Section Facts.
Variable World : Type.
Variables CompilerOptions Program Diagnostic : Type.
Variable path_resolve : string -> string.
Variable fs_existsSync : World -> string -> bool.
Variable performance_now : World -> Q * World.
Variable ts_findConfigFile : M World (option string).
Variable ts_readOptions : string -> M World CompilerOptions.
Variable ts_createProgram : list string -> CompilerOptions -> M World Program.
Variable getSemanticDiagnostics : Program -> M World (list Diagnostic).
Variable getSyntacticDiagnostics : Program -> M World (list Diagnostic).
Variable getGlobalDiagnostics : Program -> M World (list Diagnostic).

Local Abbreviation runBenchmark' :=
  (runBenchmark path_resolve fs_existsSync performance_now
     ts_findConfigFile ts_readOptions ts_createProgram
     getSemanticDiagnostics getSyntacticDiagnostics getGlobalDiagnostics).
Local Abbreviation main' :=
  (main path_resolve fs_existsSync performance_now
     ts_findConfigFile ts_readOptions ts_createProgram
     getSemanticDiagnostics getSyntacticDiagnostics getGlobalDiagnostics).

(** Without any argument the program prints the usage text and exits
    with status 1; the prober is not invoked. *)
Lemma main_without_arguments (st : State World) :
  main' [] st = (Usage, st) /\ exit_status Usage = 1%Z.
Proof. split; reflexivity. Qed.

(** With arguments that are all [--iterations=..] flags there is no file
    left to probe, and the benchmark runs on the empty list. *)
Lemma main_with_flags_only (args : list string) (st : State World) :
  args <> [] ->
  Forall (fun arg => is_iterations_arg arg = true) args ->
  main' args st = (Ran (Completed [] None), st).
Proof.
  intros Hne Hall.
  assert (Hfilter : filter (fun a => negb (is_iterations_arg a)) args = []).
  { clear Hne. induction Hall as [| a l Ha _ IH]; [reflexivity |].
    simpl. rewrite Ha. exact IH. }
  destruct args as [| arg args]; [congruence |].
  inversion Hall as [| a l Ha _]; subst.
  unfold main, parse_args. rewrite Hfilter.
  unfold JS.find. simpl List.find. rewrite Ha. reflexivity.
Qed.

(** C9, evaluated: on the command line [--iterations=3], which names no
    file, the program does not print the usage text; it runs the
    benchmark on the empty file list, invokes the prober not at all,
    prints two empty tables' worth of output and returns, so the process
    exits with status 0.  Only the empty command line gives the usage
    text and status 1. *)
Theorem C9_flag_without_files_runs_an_empty_benchmark (st : State World) :
  main' ["--iterations=3"] st = (Ran (Completed [] None), st)
  /\ exit_status (fst (main' ["--iterations=3"] st)) = 0%Z
  /\ fst (main' ["--iterations=3"] st) <> Usage
  /\ main' [] st = (Usage, st).
Proof.
  repeat split. discriminate.
Qed.

(** C10: when the first argument that starts with [--iterations=] is
    [--iterations=v], the benchmark runs with [parseInt(v)] iterations if
    that is a number other than 0, and with 5 if it is NaN or 0; the files
    probed are the arguments that do not start with [--iterations=], in
    their order. *)
Theorem C10_iterations_flag_sets_the_count
    (args : list string) (v : string) (st : State World) :
  JS.find is_iterations_arg args = Some ("--iterations=" ++ v)%string ->
  let files := filter (fun arg => negb (JS.startsWith arg "--iterations=")) args in
  let iterations :=
    match JS.parseInt v with
    | Some n => if (n =? 0)%Z then 5%Z else n
    | None => 5%Z
    end in
  parse_args args = (files, iterations)
  /\ main' args st =
     (Ran (fst (runBenchmark' files iterations st)),
      snd (runBenchmark' files iterations st))
  /\ (forall arg, In arg files <->
                  In arg args /\ JS.startsWith arg "--iterations=" = false)
  /\ (JS.parseInt v = None \/ JS.parseInt v = Some 0%Z -> iterations = 5%Z)
  /\ (forall n, JS.parseInt v = Some n -> n <> 0%Z -> iterations = n).
Proof.
  intros Hfind files iterations.
  assert (Hparse : parse_args args = (files, iterations)).
  { rewrite (parse_args_with_flag _ Hfind). reflexivity. }
  split; [exact Hparse | split; [| split; [| split]]].
  - destruct args as [| arg args]; [discriminate |].
    unfold main. rewrite Hparse.
    destruct (runBenchmark' files iterations st). reflexivity.
  - intros arg. unfold files. rewrite filter_In, negb_true_iff. reflexivity.
  - unfold iterations. intros [-> | ->]; reflexivity.
  - unfold iterations. intros n -> Hn.
    destruct (Z.eqb_spec n 0); [contradiction | reflexivity].
Qed.

End Facts.

End CommandLineFacts.

(* ===================================================================== *)
(** ** The batch orchestrator                                             *)
(* ===================================================================== *)

Module OrchestratorFacts.

Import Effect Orchestrator.
Local Open Scope string_scope.
Local Open Scope list_scope.

Lemma array_includes_In (xs : list string) (x : string) :
  JS.array_includes xs x = true <-> In x xs.
Proof.
  unfold JS.array_includes. rewrite existsb_exists. split.
  - intros (y & Hin & Heq). apply String.eqb_eq in Heq. subst. exact Hin.
  - intros Hin. exists x. split; [exact Hin | apply String.eqb_refl].
Qed.

Section Facts.
Variable World : Type.
Variable benchmarkDir : string.
Variable join : string -> string -> string.
Variable readdir : string -> M World (list string).
Variable stat_isFile : string -> M World bool.
Variable execa :
  string -> list string -> string -> list (string * string) -> M World unit.

Local Abbreviation run' := (run benchmarkDir join readdir stat_isFile execa).
Local Abbreviation script' :=
  (script benchmarkDir join readdir stat_isFile execa).
Local Abbreviation run_all' := (run_all benchmarkDir execa).
Local Abbreviation runBenchmark' := (runBenchmark execa).

Lemma quiet_lift A (m : M World A) : quiet (lift m).
Proof. intros st. unfold lift. destruct (m (world st)). auto. Qed.

Lemma quiet_ret A (a : A) : quiet (World := World) (ret a).
Proof. intros st. auto. Qed.

Lemma quiet_bind A B (m : M (State World) A) (k : A -> M (State World) B) :
  quiet m -> (forall a, quiet (k a)) -> quiet (bind m k).
Proof.
  intros Hm Hk st. unfold bind. specialize (Hm st).
  destruct (m st) as [[e | a] st1]; simpl in *; [exact Hm |].
  destruct (Hk a st1) as [H1 H2]. destruct Hm as [H3 H4].
  split; congruence.
Qed.

Lemma quiet_keep_bench_files dir items : forall benchmarkFiles,
  quiet (keep_bench_files join stat_isFile dir items benchmarkFiles).
Proof.
  induction items as [| item rest IH]; intros benchmarkFiles; simpl.
  - apply quiet_ret.
  - apply quiet_bind; [apply quiet_lift |].
    intros isFile. destruct (isFile && JS.endsWith item ".bench.ts"); apply IH.
Qed.

Lemma quiet_getBenchmarkFiles dir :
  quiet (getBenchmarkFiles join readdir stat_isFile dir).
Proof.
  unfold getBenchmarkFiles. apply quiet_bind; [apply quiet_lift |].
  intros items. apply quiet_keep_bench_files.
Qed.

(** One fixture's subprocess: never an exception, one more entry in the
    record, and the flag raised exactly when the subprocess rejected. *)
Lemma runBenchmark_spec benchFile cwd updateSnapshots (st : State World) :
  exists ok w',
    runBenchmark' benchFile cwd updateSnapshots st =
      (inr {| test := benchFile; success := ok; skipped := None |},
       {| world := w';
          hasAnyFailure := hasAnyFailure st || negb ok;
          spawned := spawned st ++ [fixture_process benchFile updateSnapshots ok]
       |}).
Proof.
  unfold runBenchmark, try_catch, bind, run_execa, set_failure, ret.
  destruct (execa _ _ _ _ (world st)) as [[e | []] w'].
  - exists false, w'. simpl. rewrite orb_true_r. reflexivity.
  - exists true, w'. simpl. rewrite orb_false_r. reflexivity.
Qed.

Lemma run_all_spec testFilter updateSnapshots benchFiles :
  forall results (st : State World),
  exists new subprocesses w',
    run_all' benchFiles testFilter updateSnapshots results st =
      (inr (results ++ new),
       {| world := w';
          hasAnyFailure := hasAnyFailure st || existsb rejected subprocesses;
          spawned := spawned st ++ subprocesses |})
    /\ Outcomes testFilter updateSnapshots benchFiles new subprocesses.
Proof.
  induction benchFiles as [| benchFile rest IH]; intros results st; simpl.
  - exists [], [], (world st). simpl.
    rewrite !app_nil_r, orb_false_r. destruct st. split; [reflexivity |].
    constructor.
  - destruct (filtered_out testFilter benchFile) eqn:Hskip.
    + destruct (IH (results ++
                    [{| test := benchFile; success := false;
                        skipped := Some true |}]) st)
        as (new & subprocesses & w' & Hrun & Hout).
      exists ({| test := benchFile; success := false; skipped := Some true |}
              :: new), subprocesses, w'.
      rewrite Hrun, <- app_assoc. split; [reflexivity |].
      constructor; assumption.
    + unfold bind.
      destruct (runBenchmark_spec benchFile benchmarkDir updateSnapshots st)
        as (ok & w1 & ->).
      match goal with
      | |- context [run_all' rest _ _ ?r ?s] =>
          destruct (IH r s) as (new & subprocesses & w' & Hrun & Hout)
      end.
      exists ({| test := benchFile; success := ok; skipped := None |} :: new),
             (fixture_process benchFile updateSnapshots ok :: subprocesses),
             w'.
      rewrite Hrun. simpl. rewrite <- !app_assoc, orb_assoc.
      split; [reflexivity |]. constructor; assumption.
Qed.

(** A run that gets to print its table: what came before the loop left
    at most the generator in the record, resolved. *)
Lemma run_reaches_results args w printed status (st' : State World) :
  run' args w = (inr (ExitAfterResults printed status), st') ->
  exists benchFiles results generated subprocesses,
    printed = printResults results
    /\ spawned st' = generated ++ subprocesses
    /\ Forall (fun p => command p = "prisma" /\ resolved p = true) generated
    /\ Outcomes (getTestFilter args) (shouldUpdateSnapshots args)
                benchFiles results subprocesses
    /\ status = (if existsb rejected subprocesses then 1 else 0)%Z.
Proof.
  unfold run, script, getGenerateOptions.
  destruct (JS.array_includes args "--onlyGenerate" &&
            JS.array_includes args "--skipGenerate"); [discriminate |].
  unfold bind, ret, runGenerate, run_execa, read_failure.
  cbn [shouldSkipGenerate shouldOnlyGenerate world hasAnyFailure spawned].
  assert (Hrest : forall st1 : State World,
             hasAnyFailure st1 = false ->
             Forall (fun p => command p = "prisma" /\ resolved p = true)
                    (spawned st1) ->
             match getBenchmarkFiles join readdir stat_isFile benchmarkDir st1
             with
             | (inr benchFiles, st2) =>
                 match run_all' benchFiles (getTestFilter args)
                         (shouldUpdateSnapshots args) [] st2 with
                 | (inr results, st3) =>
                     (inr (ExitAfterResults (printResults results)
                             (if hasAnyFailure st3 then 1 else 0)%Z), st3)
                 | (inl e, st3) => (inl e, st3)
                 end
             | (inl e, st2) => (inl e, st2)
             end = (inr (ExitAfterResults printed status), st') ->
             exists benchFiles results generated subprocesses,
               printed = printResults results
               /\ spawned st' = generated ++ subprocesses
               /\ Forall (fun p => command p = "prisma" /\ resolved p = true)
                         generated
               /\ Outcomes (getTestFilter args) (shouldUpdateSnapshots args)
                           benchFiles results subprocesses
               /\ status = (if existsb rejected subprocesses then 1 else 0)%Z).
  { intros st1 Hflag Hgen.
    destruct (quiet_getBenchmarkFiles benchmarkDir st1) as [Hf Hs].
    destruct (getBenchmarkFiles _ _ _ _ st1) as [[e | benchFiles] st2];
      [discriminate |]. simpl in Hf, Hs.
    destruct (run_all_spec (getTestFilter args) (shouldUpdateSnapshots args)
                benchFiles [] st2)
      as (results & subprocesses & w' & -> & Hout).
    cbn [hasAnyFailure]. rewrite Hf, Hflag, Hs. simpl.
    intros [= <- <- <-].
    exists benchFiles, results, (spawned st1), subprocesses. auto. }
  destruct (negb (JS.array_includes args "--skipGenerate"));
    cbn [world hasAnyFailure spawned app].
  - destruct (execa "prisma" ["generate"] benchmarkDir [] w) as [[e | []] w1];
      cbv beta iota; [discriminate |].
    destruct (JS.array_includes args "--onlyGenerate"); [discriminate |].
    apply Hrest; [reflexivity |]. repeat constructor.
  - cbv beta iota.
    destruct (JS.array_includes args "--onlyGenerate"); [discriminate |].
    apply Hrest; [reflexivity | constructor].
Qed.

Lemma outcomes_subprocess testFilter updateSnapshots benchFiles results
      subprocesses p :
  Outcomes testFilter updateSnapshots benchFiles results subprocesses ->
  In p subprocesses ->
  exists r,
    In r results /\ skipped r = None
    /\ filtered_out testFilter (test r) = false
    /\ p = fixture_process (test r) updateSnapshots (success r).
Proof.
  induction 1 as [| benchFile rest results subprocesses Hskip _ IH
                  | benchFile ok rest results subprocesses Hrun _ IH];
    simpl; intros Hin.
  - contradiction.
  - destruct (IH Hin) as (r & Hr & Hrest). exists r. auto.
  - destruct Hin as [<- | Hin].
    + eexists. split; [left; reflexivity |]. simpl. auto.
    + destruct (IH Hin) as (r & Hr & Hrest). exists r. auto.
Qed.

Lemma outcomes_result testFilter updateSnapshots benchFiles results
      subprocesses r :
  Outcomes testFilter updateSnapshots benchFiles results subprocesses ->
  In r results ->
  (skipped r = Some true /\ success r = false
   /\ filtered_out testFilter (test r) = true)
  \/ (skipped r = None /\ filtered_out testFilter (test r) = false
      /\ In (fixture_process (test r) updateSnapshots (success r))
            subprocesses).
Proof.
  induction 1 as [| benchFile rest results subprocesses Hskip _ IH
                  | benchFile ok rest results subprocesses Hrun _ IH];
    simpl; intros Hin.
  - contradiction.
  - destruct Hin as [<- | Hin]; [left; simpl; auto | auto].
  - destruct Hin as [<- | Hin]; [right; simpl; auto |].
    destruct (IH Hin) as [Hs | (H1 & H2 & H3)]; auto.
Qed.

Lemma filtered_out_spec testFilter benchFile :
  filtered_out testFilter benchFile = true ->
  exists f, testFilter = Some f /\ f <> EmptyString
            /\ JS.includes benchFile f = false.
Proof.
  destruct testFilter as [[| c f] |]; simpl; try discriminate.
  intros H. apply negb_true_iff in H. eexists. repeat split; eauto.
  discriminate.
Qed.

(** C3: in a run that gets to print its table the exit status is 0 or 1,
    and it is 1 exactly when the subprocess of some fixture rejected
    (exited non-zero), which is exactly when some fixture is marked
    failed.  A fixture marked skipped is one whose name does not contain
    the name filter; no subprocess was started for it, and it is not what
    makes the status 1: when every mark is success or skipped, the status
    is 0. *)
Theorem C3_exit_status_reflects_fixture_failures
    (args : list string) (w : World) (printed : list (Mark * string))
    (status : Z) (st' : State World) :
  run' args w = (inr (ExitAfterResults printed status), st') ->
  (status = 0 \/ status = 1)%Z
  /\ (status = 1%Z <->
      exists p, In p (spawned st') /\ command p = "node"
                /\ resolved p = false)
  /\ (status = 1%Z <-> exists benchFile, In (MarkFailed, benchFile) printed)
  /\ (forall benchFile,
         In (MarkSkipped, benchFile) printed ->
         (exists f, getTestFilter args = Some f
                    /\ JS.includes benchFile f = false)
         /\ ~ exists p, In p (spawned st') /\ command p = "node"
                        /\ arguments p = [benchFile])
  /\ ((forall m benchFile,
          In (m, benchFile) printed -> m = MarkSuccess \/ m = MarkSkipped) ->
      status = 0%Z).
Proof.
  intros Hrun.
  destruct (run_reaches_results _ _ Hrun)
    as (benchFiles & results & generated & subprocesses
        & -> & Hspawned & Hgen & Hout & ->).
  rewrite Hspawned. rewrite Forall_forall in Hgen.
  assert (Hstatus : existsb rejected subprocesses = true <->
                    exists p, In p (generated ++ subprocesses)
                              /\ command p = "node" /\ resolved p = false).
  { rewrite existsb_exists. split.
    - intros (p & Hin & Hrej). exists p.
      destruct (outcomes_subprocess _ Hout Hin) as (r & _ & _ & _ & ->).
      apply negb_true_iff in Hrej. rewrite in_app_iff. auto.
    - intros (p & Hin & Hcmd & Hres). exists p.
      apply in_app_iff in Hin. destruct Hin as [Hin | Hin].
      + destruct (Hgen _ Hin) as [_ Hok]. congruence.
      + split; [exact Hin |]. unfold rejected. rewrite Hres. reflexivity. }
  assert (Hfailed : existsb rejected subprocesses = true <->
                    exists benchFile,
                      In (MarkFailed, benchFile) (printResults results)).
  { rewrite existsb_exists. unfold printResults. split.
    - intros (p & Hin & Hrej).
      destruct (outcomes_subprocess _ Hout Hin) as (r & Hr & Hsk & _ & ->).
      exists (test r). apply in_map_iff. exists r. split; [| exact Hr].
      unfold mark. rewrite Hsk. apply negb_true_iff in Hrej. simpl in Hrej.
      rewrite Hrej. reflexivity.
    - intros (benchFile & Hin). apply in_map_iff in Hin.
      destruct Hin as (r & Heq & Hr). unfold mark in Heq.
      destruct (outcomes_result _ Hout Hr) as [(Hsk & _) | (Hsk & _ & Hp)];
        rewrite Hsk in Heq; [discriminate |].
      destruct (success r) eqn:Hs; [discriminate |].
      eexists. split; [exact Hp | reflexivity]. }
  split; [| split; [| split; [| split]]].
  - destruct (existsb rejected subprocesses); auto.
  - rewrite <- Hstatus. destruct (existsb rejected subprocesses);
      split; (reflexivity || discriminate).
  - rewrite <- Hfailed. destruct (existsb rejected subprocesses);
      split; (reflexivity || discriminate).
  - intros benchFile Hin. apply in_map_iff in Hin.
    destruct Hin as (r & Heq & Hr). unfold mark in Heq.
    destruct (outcomes_result _ Hout Hr) as [(Hsk & _ & Hf) | (Hsk & _)].
    + injection Heq as _ <-.
      destruct (filtered_out_spec _ _ Hf) as (f & Hfilter & _ & Hinc).
      split; [eauto |].
      intros (p & Hin & Hnode & Hargs). apply in_app_iff in Hin.
      destruct Hin as [Hin | Hin].
      * destruct (Hgen _ Hin) as [Hcmd _]. congruence.
      * destruct (outcomes_subprocess _ Hout Hin) as (r' & _ & _ & Hf' & ->).
        simpl in Hargs. injection Hargs as Heq. congruence.
    + rewrite Hsk in Heq. destruct (success r); discriminate.
  - intros Hmarks.
    destruct (existsb rejected subprocesses); [| reflexivity].
    destruct Hfailed as [Hfailed _].
    destruct (Hfailed eq_refl) as (benchFile & Hin).
    destruct (Hmarks _ _ Hin); discriminate.
Qed.

(** C7: when both [--onlyGenerate] and [--skipGenerate] are among the
    arguments, the run ends at once with the thrown error: no subprocess
    has been started (neither the generator nor a fixture) and the world
    is as it was (the directory has not been read). *)
Theorem C7_conflicting_flags_fail_before_anything_runs
    (args : list string) (w : World) :
  In "--onlyGenerate" args ->
  In "--skipGenerate" args ->
  run' args w =
    (inl (ThrownError "Cannot run generate and skip generate at the same time"),
     {| world := w; hasAnyFailure := false; spawned := [] |}).
Proof.
  intros Honly Hskip.
  apply array_includes_In in Honly. apply array_includes_In in Hskip.
  unfold run, script, getGenerateOptions. rewrite Honly, Hskip. reflexivity.
Qed.

End Facts.

End OrchestratorFacts.

(* ===================================================================== *)
(** ** The theorems at work on concrete worlds                            *)
(* ===================================================================== *)

Module Runs.

Import Effect.
Local Open Scope string_scope.

(** The clock of the concrete world never goes back. *)
Lemma lab_clock_monotonic :
  Measure.MonotonicClock Lab.performance_now Lab.ts_findConfigFile
    Lab.ts_readOptions Lab.ts_createProgram Lab.getSemanticDiagnostics
    Lab.getSyntacticDiagnostics Lab.getGlobalDiagnostics.
Proof.
  constructor; unfold Measure.advances, Measure.clock; simpl; intros;
    try apply Qle_refl; try lra.
  unfold Lab.check_cost.
  destruct (List.find _ _) as [e |]; [| lra].
  assert (0 <= inject_Z (Z.of_N (Lab.checkTime e))).
  { unfold Qle. simpl. lia. }
  lra.
Qed.

Lemma C5_witness :
  Lab.fs_existsSync Lab.flaky_disk (Lab.path_resolve "missing.ts") = false
  /\ exists message,
      Lab.measureTypeChecking "missing.ts" Lab.flaky_disk =
        ({| Measure.file := "missing.ts";
            Measure.typeCheckTime := 0;
            Measure.totalTime := 0;
            Measure.diagnosticsCount := 0;
            Measure.success := false;
            Measure.error := Some message |}, Lab.flaky_disk)
      /\ message = "File not found: " ++ Lab.path_resolve "missing.ts"
      /\ message <> EmptyString
      /\ JS.endsWith message (Lab.path_resolve "missing.ts") = true.
Proof.
  split; [reflexivity |].
  apply (ProberFacts.C5_missing_file_gives_failed_measurement
           Lab.path_resolve Lab.fs_existsSync Lab.performance_now
           Lab.ts_findConfigFile Lab.ts_readOptions Lab.ts_createProgram
           Lab.getSemanticDiagnostics Lab.getSyntacticDiagnostics
           Lab.getGlobalDiagnostics "missing.ts" Lab.flaky_disk).
  reflexivity.
Defined.

Lemma C6_witness :
  Lab.fs_existsSync Lab.no_config (Lab.path_resolve "b.ts") = true
  /\ Lab.ts_findConfigFile (snd (Lab.performance_now Lab.no_config))
     = (inr None, Lab.elapse 1 Lab.no_config)
  /\ Measure.success (fst (Lab.measureTypeChecking "b.ts" Lab.no_config)) = false
  /\ Measure.error (fst (Lab.measureTypeChecking "b.ts" Lab.no_config))
     = Some "Could not find a valid 'tsconfig.json'.".
Proof.
  split; [reflexivity | split; [reflexivity |]].
  exact (proj1 (proj2
           (ProberFacts.C6_raised_errors_become_failed_measurements
              Lab.path_resolve Lab.fs_existsSync Lab.performance_now
              Lab.ts_findConfigFile Lab.ts_readOptions Lab.ts_createProgram
              Lab.getSemanticDiagnostics Lab.getSyntacticDiagnostics
              Lab.getGlobalDiagnostics "b.ts" Lab.no_config eq_refl))
           (Lab.elapse 1 Lab.no_config) eq_refl).
Defined.

Lemma C8_witness :
  Measure.MonotonicClock Lab.performance_now Lab.ts_findConfigFile
    Lab.ts_readOptions Lab.ts_createProgram Lab.getSemanticDiagnostics
    Lab.getSyntacticDiagnostics Lab.getGlobalDiagnostics
  /\ 0 <= Measure.typeCheckTime (fst (Lab.measureTypeChecking "b.ts" Lab.flaky_disk))
  /\ Measure.typeCheckTime (fst (Lab.measureTypeChecking "b.ts" Lab.flaky_disk))
     <= Measure.totalTime (fst (Lab.measureTypeChecking "b.ts" Lab.flaky_disk)).
Proof.
  split; [exact lab_clock_monotonic |].
  exact (proj1 (ProberFacts.C8_total_time_covers_type_check_time
                  Lab.path_resolve Lab.fs_existsSync "b.ts" Lab.flaky_disk
                  lab_clock_monotonic)).
Defined.

Lemma C10_witness :
  JS.find Measure.is_iterations_arg ["a.ts"; "--iterations=0"; "b.ts"]
  = Some ("--iterations=" ++ "0")
  /\ Measure.parse_args ["a.ts"; "--iterations=0"; "b.ts"]
     = (["a.ts"; "b.ts"], 5%Z).
Proof.
  split; [reflexivity |].
  exact (proj1 (@CommandLineFacts.C10_iterations_flag_sets_the_count
                  _ _ _ _ Lab.path_resolve Lab.fs_existsSync Lab.performance_now
                  Lab.ts_findConfigFile Lab.ts_readOptions Lab.ts_createProgram
                  Lab.getSemanticDiagnostics Lab.getSyntacticDiagnostics
                  Lab.getGlobalDiagnostics
                  ["a.ts"; "--iterations=0"; "b.ts"] "0"
                  (Lab.start Lab.flaky_disk) eq_refl)).
Defined.

Lemma C3_witness :
  Lab.run ["a"] ["b.bench.ts"]
  = (inr (Orchestrator.ExitAfterResults
            [(Orchestrator.MarkSuccess, "a.bench.ts");
             (Orchestrator.MarkSkipped, "b.bench.ts")] 0),
     snd (Lab.run ["a"] ["b.bench.ts"]))
  /\ ~ exists p,
        In p (Orchestrator.spawned (snd (Lab.run ["a"] ["b.bench.ts"])))
        /\ Orchestrator.command p = "node"
        /\ Orchestrator.arguments p = ["b.bench.ts"].
Proof.
  split; [reflexivity |].
  refine (proj2 (proj1 (proj2 (proj2 (proj2
           (@OrchestratorFacts.C3_exit_status_reflects_fixture_failures
              _ "/bench" (fun dir item => dir ++ "/" ++ item)
              Lab.readdir Lab.stat_isFile Lab.execa ["a"] ["b.bench.ts"]
              [(Orchestrator.MarkSuccess, "a.bench.ts");
               (Orchestrator.MarkSkipped, "b.bench.ts")]
              0%Z _ eq_refl))))
           "b.bench.ts" _)).
  right. left. reflexivity.
Defined.

Lemma C7_witness :
  In "--onlyGenerate" ["--skipGenerate"; "-u"; "--onlyGenerate"]
  /\ In "--skipGenerate" ["--skipGenerate"; "-u"; "--onlyGenerate"]
  /\ Lab.run ["--skipGenerate"; "-u"; "--onlyGenerate"] ["b.bench.ts"]
     = (inl (ThrownError "Cannot run generate and skip generate at the same time"),
        {| Orchestrator.world := ["b.bench.ts"];
           Orchestrator.hasAnyFailure := false;
           Orchestrator.spawned := [] |}).
Proof.
  assert (Honly : In "--onlyGenerate" ["--skipGenerate"; "-u"; "--onlyGenerate"])
    by (simpl; auto).
  assert (Hskip : In "--skipGenerate" ["--skipGenerate"; "-u"; "--onlyGenerate"])
    by (simpl; auto).
  split; [exact Honly | split; [exact Hskip |]].
  exact (@OrchestratorFacts.C7_conflicting_flags_fail_before_anything_runs
           _ "/bench" (fun dir item => dir ++ "/" ++ item)
           Lab.readdir Lab.stat_isFile Lab.execa
           ["--skipGenerate"; "-u"; "--onlyGenerate"] ["b.bench.ts"]
           Honly Hskip).
Defined.

(** C1, evaluated: [a.ts] is probed in the warm-up pass and in the first
    measured iteration, and is gone at the second, which fails with
    [typeCheckTime = 0] and ends the fixture's iterations.  The summary row
    averages over both measured iterations (5.00, minimum 0.00, maximum
    10.00), where the successful iterations alone give 10.00 three times. *)
Theorem C1_failed_iteration_enters_the_statistics :
  let run := Lab.runBenchmark ["a.ts"] 3 (Lab.start Lab.flaky_disk) in
  map (fun call => (Measure.success (snd call),
                    Measure.typeCheckTime (snd call)))
      (Measure.calls (snd run))
  = [(true, 10); (true, 10); (false, 0)]
  /\ fst run =
     Measure.Completed
       [{| Measure.File := "a.ts";
           Measure.Avg_Type_Check := JS.Fixed 500;
           Measure.Min := JS.Fixed 0;
           Measure.Max := JS.Fixed 1000;
           Measure.Diagnostics := 0 |}]
       None
  /\ Measure.summarize_successful "a.ts"
       (map snd (skipn 1 (Measure.calls (snd run))))
     = {| Measure.File := "a.ts";
          Measure.Avg_Type_Check := JS.Fixed 1000;
          Measure.Min := JS.Fixed 1000;
          Measure.Max := JS.Fixed 1000;
          Measure.Diagnostics := 0 |}.
Proof.
  repeat split; vm_compute; reflexivity.
Qed.

(** C2, evaluated: with two fixtures that both fail their first
    measurement (neither file exists) the summary table flags both as
    ERROR, and then no comparison table is produced at all: [reduce] is
    called on the empty array of valid rows and throws, which ends the
    process with status 1. *)
Theorem C2_all_fixtures_failed_throws :
  fst (Lab.runBenchmark ["x.ts"; "y.ts"] 5 (Lab.start Lab.flaky_disk))
  = Measure.ReduceOfEmptyArray
      [Measure.error_row "x.ts"; Measure.error_row "y.ts"]
  /\ Measure.exit_status
       (fst (Lab.main ["x.ts"; "y.ts"] (Lab.start Lab.flaky_disk))) = 1%Z.
Proof.
  split; vm_compute; reflexivity.
Qed.

(** A run in which every fixture is measured: [b.ts] and [c.ts], two
    iterations each.  Six invocations of the prober (two of the warm-up
    pass, then two per fixture), and a comparison table with the faster
    fixture first, as baseline. *)
Example two_fixtures_compared :
  let run := Lab.runBenchmark ["b.ts"; "c.ts"] 2 (Lab.start Lab.flaky_disk) in
  map fst (Measure.calls (snd run))
  = ["b.ts"; "c.ts"; "b.ts"; "b.ts"; "c.ts"; "c.ts"]
  /\ fst run =
     Measure.Completed
       [{| Measure.File := "b.ts";
           Measure.Avg_Type_Check := JS.Fixed 3000;
           Measure.Min := JS.Fixed 3000;
           Measure.Max := JS.Fixed 3000;
           Measure.Diagnostics := 0 |};
        {| Measure.File := "c.ts";
           Measure.Avg_Type_Check := JS.Fixed 1200;
           Measure.Min := JS.Fixed 1200;
           Measure.Max := JS.Fixed 1200;
           Measure.Diagnostics := 0 |}]
       (Some
          [{| Measure.cFile := "c.ts";
              Measure.Relative_Speed := Measure.BASELINE;
              Measure.Absolute_Diff :=
                {| Measure.plus := true; Measure.digits := JS.Fixed 0 |} |};
           {| Measure.cFile := "b.ts";
              Measure.Relative_Speed := Measure.Slower (JS.Fixed 250);
              Measure.Absolute_Diff :=
                {| Measure.plus := true; Measure.digits := JS.Fixed 1800 |} |}]).
Proof.
  split; vm_compute; reflexivity.
Qed.

(** One failed fixture next to a measured one: the failed one is flagged
    ERROR and left out of the comparison, and the other is still measured
    in full. *)
Example failed_fixture_left_out :
  let run := Lab.runBenchmark ["x.ts"; "c.ts"] 2 (Lab.start Lab.flaky_disk) in
  map (fun call => (fst call, Measure.success (snd call)))
      (Measure.calls (snd run))
  = [("x.ts", false); ("c.ts", true);
     ("x.ts", false); ("c.ts", true); ("c.ts", true)]
  /\ fst run =
     Measure.Completed
       [Measure.error_row "x.ts";
        {| Measure.File := "c.ts";
           Measure.Avg_Type_Check := JS.Fixed 1200;
           Measure.Min := JS.Fixed 1200;
           Measure.Max := JS.Fixed 1200;
           Measure.Diagnostics := 0 |}]
       (Some
          [{| Measure.cFile := "c.ts";
              Measure.Relative_Speed := Measure.BASELINE;
              Measure.Absolute_Diff :=
                {| Measure.plus := true; Measure.digits := JS.Fixed 0 |} |}]).
Proof.
  split; vm_compute; reflexivity.
Qed.

(** The orchestrator on a directory with [a.bench.ts] (exits 0) and
    [b.bench.ts] (exits 1), without a filter and without generation. *)
Example one_fixture_fails :
  fst (Lab.run ["--skipGenerate"] ["b.bench.ts"])
  = inr (Orchestrator.ExitAfterResults
           [(Orchestrator.MarkSuccess, "a.bench.ts");
            (Orchestrator.MarkFailed, "b.bench.ts")] 1)
  /\ map Orchestrator.arguments
         (Orchestrator.spawned (snd (Lab.run ["--skipGenerate"] ["b.bench.ts"])))
     = [["a.bench.ts"]; ["b.bench.ts"]].
Proof.
  split; reflexivity.
Qed.

(** [--onlyGenerate] runs the generator and nothing else. *)
Example only_generate :
  fst (Lab.run ["--onlyGenerate"] ["b.bench.ts"])
  = inr Orchestrator.ExitAfterGenerate
  /\ map Orchestrator.command
         (Orchestrator.spawned (snd (Lab.run ["--onlyGenerate"] ["b.bench.ts"])))
     = ["prisma"].
Proof.
  split; reflexivity.
Qed.

End Runs.

(* ===================================================================== *)
(** ** Further properties of the prober                                   *)
(* ===================================================================== *)

Module ProberMore.

Import Effect Measure.
Local Open Scope string_scope.

Section Facts.
Variable World : Type.
Variables CompilerOptions Program Diagnostic : Type.
Variable path_resolve : string -> string.
Variable fs_existsSync : World -> string -> bool.
Variable performance_now : World -> Q * World.
Variable ts_findConfigFile : M World (option string).
Variable ts_readOptions : string -> M World CompilerOptions.
Variable ts_createProgram : list string -> CompilerOptions -> M World Program.
Variable getSemanticDiagnostics : Program -> M World (list Diagnostic).
Variable getSyntacticDiagnostics : Program -> M World (list Diagnostic).
Variable getGlobalDiagnostics : Program -> M World (list Diagnostic).

Local Abbreviation measure :=
  (measureTypeChecking path_resolve fs_existsSync performance_now
     ts_findConfigFile ts_readOptions ts_createProgram
     getSemanticDiagnostics getSyntacticDiagnostics getGlobalDiagnostics).
Local Abbreviation body :=
  (try_block performance_now ts_findConfigFile ts_readOptions
     ts_createProgram getSemanticDiagnostics getSyntacticDiagnostics
     getGlobalDiagnostics).
Local Abbreviation collect' :=
  (collect getSemanticDiagnostics getSyntacticDiagnostics
     getGlobalDiagnostics).
Local Abbreviation clock' := (clock performance_now).
Local Abbreviation Constructed' :=
  (Constructed ts_findConfigFile ts_readOptions ts_createProgram).

Lemma collect_returns program wb diagnostics wc :
  collect' program wb = (inr diagnostics, wc) <->
  exists semantic w1 syntactic w2 global,
    getSemanticDiagnostics program wb = (inr semantic, w1)
    /\ getSyntacticDiagnostics program w1 = (inr syntactic, w2)
    /\ getGlobalDiagnostics program w2 = (inr global, wc)
    /\ diagnostics = (semantic ++ syntactic ++ global)%list.
Proof.
  unfold collect, bind, ret. split.
  - destruct (getSemanticDiagnostics program wb)
      as [[e1 | semantic] w1] eqn:H1; [discriminate |].
    destruct (getSyntacticDiagnostics program w1)
      as [[e2 | syntactic] w2] eqn:H2; [discriminate |].
    destruct (getGlobalDiagnostics program w2)
      as [[e3 | global] w3] eqn:H3; [discriminate |].
    intros [= <- <-]. exists semantic, w1, syntactic, w2, global. auto.
  - intros (semantic & w1 & syntactic & w2 & global & H1 & H2 & H3 & ->).
    rewrite H1, H2, H3. reflexivity.
Qed.

(** X1: whatever the input and the world, the measurement the prober
    returns carries the file name it was given; it has an error message
    exactly when [success] is false; a failed measurement has
    [typeCheckTime] 0 and no diagnostics; and a successful one is only
    returned for a path that existed. *)
Theorem X1_shape_of_every_measurement (fileName : string) (w : World) :
  let result := fst (measure fileName w) in
  file result = fileName
  /\ (success result = true <-> error result = None)
  /\ (success result = false ->
      typeCheckTime result = 0 /\ diagnosticsCount result = 0%nat)
  /\ (success result = true ->
      fs_existsSync w (path_resolve fileName) = true).
Proof.
  intros result. subst result.
  destruct (fs_existsSync w (path_resolve fileName)) eqn:Hex.
  - rewrite ProberFacts.measure_existing by exact Hex.
    destruct (ProberFacts.try_block_cases performance_now ts_findConfigFile
                ts_readOptions ts_createProgram getSemanticDiagnostics
                getSyntacticDiagnostics getGlobalDiagnostics
                fileName (path_resolve fileName) (clock' w)
                (snd (performance_now w)))
      as [(e & w1 & _ & Hb)
         | [(program & wa & wb & e & w1 & _ & _ & _ & Hb)
           | (program & wa & wb & ds & wc & wd & w1 & _ & _ & _ & _ & _ & Hb)]];
      rewrite Hb; simpl; repeat split; intros; auto; discriminate.
  - unfold measureTypeChecking. rewrite Hex. simpl.
    repeat split; intros; auto; discriminate.
Qed.

(** X2: a successful measurement comes from a run of the whole sequence:
    the program was built; the semantic, the syntactic and the global
    diagnostics were requested, in this order; [diagnosticsCount] is the sum
    of the three lists' lengths (nothing is merged or filtered); and
    [typeCheckTime] is the clock reading right after the third request
    minus the reading right before the first. *)
Theorem X2_successful_measurement_counts_all_diagnostics
    (fileName : string) (w : World) :
  success (fst (measure fileName w)) = true ->
  exists program wa semantic wb syntactic wc global wd,
    Constructed' (path_resolve fileName) (snd (performance_now w)) program wa
    /\ getSemanticDiagnostics program (snd (performance_now wa))
       = (inr semantic, wb)
    /\ getSyntacticDiagnostics program wb = (inr syntactic, wc)
    /\ getGlobalDiagnostics program wc = (inr global, wd)
    /\ diagnosticsCount (fst (measure fileName w))
       = (length semantic + length syntactic + length global)%nat
    /\ typeCheckTime (fst (measure fileName w)) = clock' wd - clock' wa.
Proof.
  destruct (fs_existsSync w (path_resolve fileName)) eqn:Hex.
  - rewrite ProberFacts.measure_existing by exact Hex.
    destruct (ProberFacts.try_block_cases performance_now ts_findConfigFile
                ts_readOptions ts_createProgram getSemanticDiagnostics
                getSyntacticDiagnostics getGlobalDiagnostics
                fileName (path_resolve fileName) (clock' w)
                (snd (performance_now w)))
      as [(e & w1 & _ & Hb)
         | [(program & wa & wb & e & w1 & _ & _ & _ & Hb)
           | (program & wa & wb & ds & wc & wd & w1
              & Hsetup & Hnow & Hcollect & _ & _ & Hb)]];
      rewrite Hb; simpl; try discriminate.
    intros _.
    apply ProberFacts.setup_returns in Hsetup.
    apply collect_returns in Hcollect.
    destruct Hcollect as (semantic & w2 & syntactic & w3 & global
                          & H1 & H2 & H3 & ->).
    exists program, wa, semantic, w2, syntactic, w3, global, wc.
    rewrite Hnow. simpl. repeat split; auto.
    rewrite !length_app. lia.
  - unfold measureTypeChecking. rewrite Hex. simpl. discriminate.
Qed.

End Facts.

End ProberMore.

(* ===================================================================== *)
(** ** Further properties of the runner                                   *)
(* ===================================================================== *)

Module RunnerMore.

Import Effect Measure Views.
Local Open Scope string_scope.
Local Open Scope list_scope.

Lemma measured_zero file segment : Measured file 0 segment -> segment = [].
Proof. inversion 1. reflexivity. Qed.


Lemma summary_table_comparison summaryData :
  summary_table (comparison summaryData) = summaryData.
Proof.
  unfold comparison. destruct (1 <? length summaryData)%nat; [| reflexivity].
  destruct (reduce_fastest (filter is_valid summaryData)); reflexivity.
Qed.










Lemma two_of_nodup (A : Type) (l : list A) :
  NoDup l ->
  ((1 < length l)%nat <-> exists x y, In x l /\ In y l /\ x <> y).
Proof.
  intros Hnd. split.
  - destruct l as [| x [| y l]]; simpl; try lia.
    intros _. exists x, y. repeat split; auto.
    inversion Hnd as [| ? ? Hx _]. intros ->. apply Hx. left. reflexivity.
  - intros (x & y & Hx & Hy & Hne).
    destruct l as [| a [| b l]]; simpl in *; try lia; try contradiction.
    destruct Hx as [<- | []], Hy as [<- | []]. congruence.
Qed.

Section Facts.
Variable World : Type.
Variables CompilerOptions Program Diagnostic : Type.
Variable path_resolve : string -> string.
Variable fs_existsSync : World -> string -> bool.
Variable performance_now : World -> Q * World.
Variable ts_findConfigFile : M World (option string).
Variable ts_readOptions : string -> M World CompilerOptions.
Variable ts_createProgram : list string -> CompilerOptions -> M World Program.
Variable getSemanticDiagnostics : Program -> M World (list Diagnostic).
Variable getSyntacticDiagnostics : Program -> M World (list Diagnostic).
Variable getGlobalDiagnostics : Program -> M World (list Diagnostic).

Local Abbreviation warm_up' :=
  (warm_up path_resolve fs_existsSync performance_now
     ts_findConfigFile ts_readOptions ts_createProgram
     getSemanticDiagnostics getSyntacticDiagnostics getGlobalDiagnostics).
Local Abbreviation iterate' :=
  (iterate path_resolve fs_existsSync performance_now
     ts_findConfigFile ts_readOptions ts_createProgram
     getSemanticDiagnostics getSyntacticDiagnostics getGlobalDiagnostics).
Local Abbreviation measure_all' :=
  (measure_all path_resolve fs_existsSync performance_now
     ts_findConfigFile ts_readOptions ts_createProgram
     getSemanticDiagnostics getSyntacticDiagnostics getGlobalDiagnostics).
Local Abbreviation runBenchmark' :=
  (runBenchmark path_resolve fs_existsSync performance_now
     ts_findConfigFile ts_readOptions ts_createProgram
     getSemanticDiagnostics getSyntacticDiagnostics getGlobalDiagnostics).
Local Abbreviation main' :=
  (main path_resolve fs_existsSync performance_now
     ts_findConfigFile ts_readOptions ts_createProgram
     getSemanticDiagnostics getSyntacticDiagnostics getGlobalDiagnostics).

(** The measured phase in full: the invocations, the keys of the results
    object, and under each key the results of the segment made for the last
    entry of that name. *)
Lemma measure_all_full iterations files : forall results (st : State World),
  NoDup (map fst results) ->
  exists segments,
    calls (snd (measure_all' iterations files results st))
      = calls st ++ concat segments
    /\ Forall2 (fun file segment =>
                  Measured file (Z.to_nat iterations) segment)
               files segments
    /\ NoDup (map fst (fst (measure_all' iterations files results st)))
    /\ (forall k, In k (map fst (fst (measure_all' iterations files results st)))
                  <-> In k files \/ In k (map fst results))
    /\ (forall k v,
           JS.get (fst (measure_all' iterations files results st)) k = Some v ->
           (exists segment,
               last_segment_of files segments k segment
               /\ v = map snd segment)
           \/ (~ In k files /\ JS.get results k = Some v)).
Proof.
  induction files as [| file rest IH]; intros results st Hnd; simpl.
  - exists []. simpl. rewrite app_nil_r. repeat split; auto; tauto.
  - destruct (RunnerFacts.iterate_spec path_resolve fs_existsSync
                performance_now ts_findConfigFile ts_readOptions
                ts_createProgram getSemanticDiagnostics
                getSyntacticDiagnostics getGlobalDiagnostics
                (Z.to_nat iterations) file (JS.set results file []) st)
      as (segment & Hcalls & Hseg & Hget & Hother & Hkeys).
    destruct (iterate' _ file _ st) as [results1 st1]. simpl in *.
    assert (Hnd1 : NoDup (map fst results1))
      by (rewrite Hkeys; apply JSFacts.keys_set_NoDup, Hnd).
    destruct (IH results1 st1 Hnd1)
      as (segments & Hrest & Hall & Hnd2 & Hdom & Hres).
    destruct (measure_all' iterations rest results1 st1) as [results2 st2].
    simpl in *.
    exists (segment :: segments). simpl.
    rewrite Hrest, Hcalls, <- app_assoc.
    repeat split; auto.
    + rewrite Hdom, Hkeys, JSFacts.keys_set_In. intuition.
    + rewrite Hdom, Hkeys, JSFacts.keys_set_In. intuition.
    + intros k v Hk.
      destruct (Hres k v Hk)
        as [(sg & (before & after & sb & sa & -> & -> & Hlen & Hnot) & ->)
           | [Hnot Hk1]].
      * left. exists sg. split; [| reflexivity].
        exists (file :: before), after, (segment :: sb), sa.
        simpl. repeat split; auto.
      * destruct (string_dec k file) as [-> | Hne].
        -- left. exists segment. split.
           ++ exists [], rest, [], segments. simpl. auto.
           ++ rewrite Hget, JSFacts.get_set_same in Hk1. simpl in Hk1.
              congruence.
        -- right. split; [intros [Heq | Hin]; [congruence | contradiction] |].
           rewrite Hother, JSFacts.get_set_other in Hk1 by congruence.
           exact Hk1.
Qed.

(** A run, taken apart: the warm-up calls, the measured segments, and the
    summary table built from them. *)
Lemma run_anatomy (files : list string) (iterations : Z) (st : State World) :
  exists warm segments,
    calls (snd (runBenchmark' files iterations st))
      = calls st ++ warm ++ concat segments
    /\ map fst warm = files
    /\ Forall2 (fun file segment =>
                  Measured file (Z.to_nat iterations) segment)
               files segments
    /\ fst (runBenchmark' files iterations st)
       = comparison (summary_table (fst (runBenchmark' files iterations st)))
    /\ NoDup (map File (summary_table (fst (runBenchmark' files iterations st))))
    /\ (forall file,
           In file (map File
                      (summary_table (fst (runBenchmark' files iterations st))))
           <-> In file files)
    /\ (forall row,
           In row (summary_table (fst (runBenchmark' files iterations st))) ->
           exists segment,
             last_segment_of files segments (File row) segment
             /\ row = summarize (File row) (map snd segment)).
Proof.
  unfold runBenchmark.
  destruct (RunnerFacts.warm_up_calls path_resolve fs_existsSync
              performance_now ts_findConfigFile ts_readOptions
              ts_createProgram getSemanticDiagnostics
              getSyntacticDiagnostics getGlobalDiagnostics files st)
    as (warm & Hwarm & Hfiles).
  destruct (measure_all_full iterations files [] (warm_up' files st)
              (NoDup_nil _))
    as (segments & Hcalls & Hsegments & Hnd & Hdom & Hres).
  destruct (measure_all' iterations files [] (warm_up' files st))
    as [results st2]. simpl in *.
  rewrite summary_table_comparison.
  exists warm, segments.
  assert (Hfile : forall file rs, File (summarize file rs) = file).
  { intros file [| r rs]; simpl; [reflexivity |].
    destruct (success r); reflexivity. }
  assert (Hkeys : map File (summary results) = map fst (JS.entries results)).
  { unfold summary. rewrite map_map. apply map_ext. intros [k v]. apply Hfile. }
  pose proof (Permutation_map fst (JSFacts.entries_perm results)) as Hperm.
  repeat split; auto.
  - rewrite Hcalls, Hwarm, <- app_assoc. reflexivity.
  - rewrite Hkeys. apply (Permutation_NoDup (Permutation_sym Hperm)), Hnd.
  - rewrite Hkeys. intros Hin. apply (Permutation_in _ Hperm) in Hin.
    apply Hdom in Hin. tauto.
  - rewrite Hkeys. intros Hin.
    apply (Permutation_in _ (Permutation_sym Hperm)). apply Hdom. auto.
  - intros row Hrow. unfold summary in Hrow. apply in_map_iff in Hrow.
    destruct Hrow as ([k v] & <- & Hin). simpl. rewrite Hfile.
    rewrite JSFacts.entries_In in Hin.
    apply JSFacts.In_get in Hin; [| exact Hnd].
    destruct (Hres k v Hin) as [(segment & Hseg & ->) | [_ Habs]];
      [eauto | discriminate].
Qed.


(** X3: for paths that are ordinary object keys, the summary table of a
    run has exactly one row for every distinct path of the file list:
    every listed path has a row, no row is for another path, and no two
    rows are for the same path, however often a path is listed. *)
Theorem X3_one_summary_row_per_distinct_path
    (files : list string) (iterations : Z) (st : State World) :
  ordinary_keys files ->
  NoDup (map File (summary_table (fst (runBenchmark' files iterations st))))
  /\ forall file,
       In file
          (map File (summary_table (fst (runBenchmark' files iterations st))))
       <-> In file files.
Proof.
  intros _.
  destruct (run_anatomy files iterations st)
    as (warm & segments & _ & _ & _ & _ & Hnd & Hdom & _).
  split; assumption.
Qed.

(** X4: every row of the summary table is computed by [summarize] from
    results the prober returned in the measured phase for that very path:
    from the segment of invocations made for the last entry of that name in
    the file list.  Warm-up results and the results of an earlier entry of
    the same name never reach the table. *)
Theorem X4_rows_come_from_the_last_measured_segment
    (files : list string) (iterations : Z) (st : State World) :
  exists warm segments,
    calls (snd (runBenchmark' files iterations st))
      = calls st ++ warm ++ concat segments
    /\ map fst warm = files
    /\ Forall2 (fun file segment =>
                  Measured file (Z.to_nat iterations) segment)
               files segments
    /\ forall row,
         In row (summary_table (fst (runBenchmark' files iterations st))) ->
         exists segment,
           last_segment_of files segments (File row) segment
           /\ row = summarize (File row) (map snd segment).
Proof.
  destruct (run_anatomy files iterations st)
    as (warm & segments & Hcalls & Hwarm & Hall & _ & _ & _ & Hrows).
  exists warm, segments. auto.
Qed.


(** X7: how a run ends depends on two things only (the paths being
    ordinary object keys).  With fewer than two different paths there is
    no comparison table, and the run returns.
    With two or more it prints a comparison table when at least one row is
    valid, and throws (out of [reduce]) when every row is ERROR. *)
Theorem X7_when_a_run_compares_and_when_it_throws
    (files : list string) (iterations : Z) (st : State World) :
  ordinary_keys files ->
  match fst (runBenchmark' files iterations st) with
  | Completed summaryData None => ~ two_paths files
  | Completed summaryData (Some table) =>
      two_paths files
      /\ exists row, In row summaryData /\ is_valid row = true
  | ReduceOfEmptyArray summaryData =>
      two_paths files
      /\ forall row, In row summaryData -> is_valid row = false
  end.
Proof.
  intros _.
  destruct (run_anatomy files iterations st)
    as (warm & segments & _ & _ & _ & Ho & Hnd & Hdom & _).
  remember (summary_table (fst (runBenchmark' files iterations st))) as s.
  assert (Htwo : (1 < length s)%nat <-> two_paths files).
  { rewrite <- (length_map File s), (two_of_nodup Hnd). unfold two_paths.
    split; intros (f & g & Hf & Hg & Hne); exists f, g;
      repeat split; auto; apply Hdom; assumption. }
  rewrite Ho. clear Ho Heqs. unfold comparison.
  destruct (Nat.ltb_spec 1 (length s)) as [Hlen | Hlen].
  - destruct (filter is_valid s) as [| d rest] eqn:Hvalid; simpl.
    + split; [apply Htwo, Hlen |]. intros row Hrow.
      destruct (is_valid row) eqn:Hv; [| reflexivity].
      assert (Hin : In row (filter is_valid s)) by (apply filter_In; auto).
      rewrite Hvalid in Hin. contradiction.
    + split; [apply Htwo, Hlen |]. exists d.
      apply filter_In. rewrite Hvalid. left. reflexivity.
  - intros Habs. apply Htwo in Habs. lia.
Qed.

(** X8: with an iteration count of zero or less, the warm-up pass is all
    the prober is invoked for; every row of the summary table is an ERROR
    row; and with two different paths in the file list (ordinary object
    keys) the run throws. *)
Theorem X8_no_iterations_means_only_error_rows
    (files : list string) (iterations : Z) (st : State World) :
  (iterations <= 0)%Z ->
  (exists warm,
      calls (snd (runBenchmark' files iterations st)) = calls st ++ warm
      /\ map fst warm = files)
  /\ (forall row,
         In row (summary_table (fst (runBenchmark' files iterations st))) ->
         row = error_row (File row))
  /\ (ordinary_keys files ->
      two_paths files ->
      fst (runBenchmark' files iterations st)
      = ReduceOfEmptyArray
          (summary_table (fst (runBenchmark' files iterations st)))).
Proof.
  intros Hle.
  destruct (run_anatomy files iterations st)
    as (warm & segments & Hcalls & Hwarm & Hall & Ho & Hnd & Hdom & Hrows).
  replace (Z.to_nat iterations) with 0%nat in Hall by lia.
  assert (Hempty : Forall (fun segment => segment = []) segments).
  { clear - Hall. induction Hall as [| f sg fs sgs Hm _ IH]; constructor; auto.
    apply (measured_zero Hm). }
  assert (Hrow : forall row,
             In row (summary_table (fst (runBenchmark' files iterations st))) ->
             row = error_row (File row)).
  { intros row Hin. destruct (Hrows row Hin) as (segment & Hlast & Heq).
    destruct Hlast as (before & after & sb & sa & _ & Hs & _ & _).
    rewrite Forall_forall in Hempty.
    rewrite (Hempty segment) in Heq
      by (rewrite Hs; apply in_or_app; right; left; reflexivity).
    exact Heq. }
  split; [| split; [exact Hrow |]].
  - exists warm. split; [| exact Hwarm]. rewrite Hcalls.
    assert (Hconcat : concat segments = []).
    { clear - Hempty. induction Hempty as [| sg sgs -> _ IH]; simpl; auto. }
    rewrite Hconcat, app_nil_r. reflexivity.
  - intros _ Htwo. rewrite Ho at 1.
    remember (summary_table (fst (runBenchmark' files iterations st))) as s.
    apply ComparisonFacts.comparison_without_valid_rows.
    + rewrite <- (length_map File s). apply (two_of_nodup Hnd).
      destruct Htwo as (f & g & Hf & Hg & Hne). exists f, g.
      repeat split; auto; apply Hdom; assumption.
    + clear - Hrow. induction s as [| row s IH]; [reflexivity |].
      simpl. rewrite (Hrow row) by (left; reflexivity). simpl.
      apply IH. intros r Hr. apply Hrow. right. exact Hr.
Qed.


(** X10: without an argument that starts with [--iterations=], every
    argument is taken as a file to probe, whatever it looks like, and the
    benchmark runs with 5 iterations. *)
Theorem X10_default_iteration_count
    (args : list string) (st : State World) :
  args <> [] ->
  Forall (fun arg => JS.startsWith arg "--iterations=" = false) args ->
  parse_args args = (args, 5%Z)
  /\ main' args st =
     (Ran (fst (runBenchmark' args 5 st)), snd (runBenchmark' args 5 st)).
Proof.
  intros Hne Hall.
  assert (Hfind : JS.find is_iterations_arg args = None).
  { clear Hne. unfold JS.find. induction Hall as [| a l Ha _ IH]; simpl.
    - reflexivity.
    - unfold is_iterations_arg at 1. rewrite Ha. exact IH. }
  assert (Hparse : parse_args args = (args, 5%Z)).
  { unfold parse_args. rewrite Hfind. reflexivity. }
  split; [exact Hparse |].
  destruct args as [| arg args]; [congruence |].
  unfold main. rewrite Hparse.
  destruct (runBenchmark' (arg :: args) 5 st). reflexivity.
Qed.

End Facts.

End RunnerMore.

(* ===================================================================== *)
(** ** Further properties of the batch orchestrator                       *)
(* ===================================================================== *)

Module OrchestratorMore.

Import Effect Orchestrator Views.
Local Open Scope string_scope.
Local Open Scope list_scope.

Lemma find_none (A : Type) (p : A -> bool) (l : list A) :
  Forall (fun x => p x = false) l -> JS.find p l = None.
Proof.
  unfold JS.find. induction 1 as [| x l Hx _ IH]; simpl.
  - reflexivity.
  - rewrite Hx. exact IH.
Qed.

Lemma kept_suffix items : forall answers,
  Forall (fun f => JS.endsWith f ".bench.ts" = true) (kept items answers).
Proof.
  induction items as [| item items IH]; intros [| isFile answers]; simpl;
    try constructor.
  destruct (isFile && JS.endsWith item ".bench.ts") eqn:H; [| apply IH].
  constructor; [| apply IH]. apply andb_true_iff in H. tauto.
Qed.

Lemma kept_incl items : forall answers f,
  In f (kept items answers) -> In f items.
Proof.
  induction items as [| item items IH]; intros [| isFile answers] f; simpl;
    try contradiction.
  destruct (isFile && JS.endsWith item ".bench.ts"); simpl.
  - intros [-> | Hin]; [left; reflexivity | right; eapply IH, Hin].
  - intros Hin. right. eapply IH, Hin.
Qed.

Section Facts.
Variable World : Type.
Variable benchmarkDir : string.
Variable join : string -> string -> string.
Variable readdir : string -> M World (list string).
Variable stat_isFile : string -> M World bool.
Variable execa :
  string -> list string -> string -> list (string * string) -> M World unit.

Local Abbreviation run' := (run benchmarkDir join readdir stat_isFile execa).
Local Abbreviation run_all' := (run_all benchmarkDir execa).
Local Abbreviation discover :=
  (getBenchmarkFiles join readdir stat_isFile).
Local Abbreviation keep := (keep_bench_files join stat_isFile).
Local Abbreviation Stats' := (Stats join stat_isFile).
Local Abbreviation StatRejects' := (StatRejects join stat_isFile).

(** The state a collaborator's call leaves: a new world, the rest as it
    was. *)
Local Abbreviation moved st w' :=
  {| world := w'; hasAnyFailure := hasAnyFailure st; spawned := spawned st |}.

Lemma keep_returns dir items answers w w' :
  Stats' dir items w answers w' ->
  forall acc (st : State World),
    world st = w ->
    keep dir items acc st = (inr (acc ++ kept items answers), moved st w').
Proof.
  induction 1 as [w | item items w isFile w1 answers w2 Hstat Hrest IH];
    intros acc st Hw; simpl.
  - rewrite app_nil_r. destruct st. simpl in Hw. subst. reflexivity.
  - unfold bind, lift. rewrite Hw, Hstat.
    destruct (isFile && JS.endsWith item ".bench.ts");
      rewrite (IH _ (moved st w1) eq_refl); simpl;
      rewrite <- ?app_assoc; reflexivity.
Qed.

Lemma keep_rejects dir items e w w' :
  StatRejects' dir items w e w' ->
  forall acc (st : State World),
    world st = w ->
    keep dir items acc st = (inl e, moved st w').
Proof.
  induction 1 as [item items w e w1 Hstat
                 | item items w isFile w1 e w2 Hstat Hrest IH];
    intros acc st Hw; simpl; unfold bind, lift; rewrite Hw, Hstat.
  - reflexivity.
  - destruct (isFile && JS.endsWith item ".bench.ts");
      rewrite (IH _ (moved st w1) eq_refl); reflexivity.
Qed.

Lemma keep_cases dir items : forall acc (st : State World),
  (exists answers w',
      Stats' dir items (world st) answers w'
      /\ keep dir items acc st = (inr (acc ++ kept items answers), moved st w'))
  \/ (exists e w',
      StatRejects' dir items (world st) e w'
      /\ keep dir items acc st = (inl e, moved st w')).
Proof.
  induction items as [| item items IH]; intros acc st.
  - left. exists [], (world st). split; [constructor |].
    simpl. rewrite app_nil_r. destruct st. reflexivity.
  - destruct (stat_isFile (join dir item) (world st)) as [[e | isFile] w1] eqn:Hs.
    + right. exists e, w1. split; [constructor; exact Hs |].
      apply keep_rejects with (w := world st); [constructor; exact Hs | reflexivity].
    + destruct (IH acc (moved st w1))
        as [(answers & w' & Hstats & _) | (e & w' & Hrej & _)];
        [simpl in Hstats | simpl in Hrej].
      * left. exists (isFile :: answers), w'.
        assert (H : Stats' dir (item :: items) (world st) (isFile :: answers) w')
          by (econstructor; eauto).
        split; [exact H | apply keep_returns with (w := world st); [exact H | reflexivity]].
      * right. exists e, w'.
        assert (H : StatRejects' dir (item :: items) (world st) e w')
          by (eapply rejects_later; eauto).
        split; [exact H | apply keep_rejects with (w := world st); [exact H | reflexivity]].
Qed.

(** X11: when discovery returns, the directory was listed once, [stat]
    answered for every item of the listing in order, and the fixtures are
    the items that are regular files and whose name ends with [.bench.ts],
    in the order of the listing; no subprocess was started. *)
Theorem X11_discovery_keeps_bench_files_in_listing_order
    (dir : string) (st st' : State World) (files : list string) :
  discover dir st = (inr files, st') ->
  exists items w1 answers,
    readdir dir (world st) = (inr items, w1)
    /\ Stats' dir items w1 answers (world st')
    /\ files = kept items answers
    /\ Forall (fun f => JS.endsWith f ".bench.ts" = true) files
    /\ (forall f, In f files -> In f items)
    /\ hasAnyFailure st' = hasAnyFailure st
    /\ spawned st' = spawned st.
Proof.
  unfold getBenchmarkFiles, bind, lift.
  destruct (readdir dir (world st)) as [[e | items] w1] eqn:Hread;
    [discriminate |].
  destruct (keep_cases dir items [] (moved st w1))
    as [(answers & w' & Hstats & ->) | (e & w' & _ & ->)]; [| discriminate].
  simpl. intros [= <- <-]. exists items, w1, answers. simpl.
  repeat split; auto.
  - apply kept_suffix.
  - apply kept_incl.
Qed.

(** X12: [stat] is asked about every item of the listing before its name
    is looked at, so a rejection of [stat] for any item, a fixture or not,
    makes discovery reject with that error. *)
Theorem X12_any_stat_rejection_aborts_discovery
    (dir : string) (st : State World) (items : list string)
    (w1 w2 : World) (e : Thrown) :
  readdir dir (world st) = (inr items, w1) ->
  StatRejects' dir items w1 e w2 ->
  discover dir st = (inl e, moved st w2).
Proof.
  intros Hread Hrej. unfold getBenchmarkFiles, bind, lift. rewrite Hread.
  rewrite (keep_rejects Hrej [] (moved st w1) eq_refl). reflexivity.
Qed.

Local Abbreviation Generated' := (Generated execa benchmarkDir).

(** The generator's entry in the record of subprocesses. *)
Local Abbreviation generator ok :=
  {| command := "prisma"; arguments := ["generate"]; environment := [];
     resolved := ok |}.

(** The script, step by step. *)
Lemma run_unfold (args : list string) (w : World) :
  run' args w =
  let st0 := {| world := w; hasAnyFailure := false; spawned := [] |} in
  if JS.array_includes args "--onlyGenerate"
     && JS.array_includes args "--skipGenerate"
  then (inl (ThrownError
               "Cannot run generate and skip generate at the same time"), st0)
  else
    match (if negb (JS.array_includes args "--skipGenerate")
           then runGenerate execa benchmarkDir st0 else (inr tt, st0)) with
    | (inl e, st1) => (inl e, st1)
    | (inr _, st1) =>
        if JS.array_includes args "--onlyGenerate"
        then (inr ExitAfterGenerate, st1)
        else
          match discover benchmarkDir st1 with
          | (inl e, st2) => (inl e, st2)
          | (inr benchFiles, st2) =>
              match run_all' benchFiles (getTestFilter args)
                      (shouldUpdateSnapshots args) [] st2 with
              | (inl e, st3) => (inl e, st3)
              | (inr results, st3) =>
                  (inr (ExitAfterResults (printResults results)
                          (if hasAnyFailure st3 then 1 else 0)%Z), st3)
              end
          end
    end.
Proof.
  unfold run, script, getGenerateOptions.
  destruct (JS.array_includes args "--onlyGenerate"
            && JS.array_includes args "--skipGenerate"); [reflexivity |].
  unfold bind, ret, read_failure. cbn [shouldSkipGenerate shouldOnlyGenerate].
  destruct (negb (JS.array_includes args "--skipGenerate")); cbv zeta.
  - destruct (runGenerate execa benchmarkDir _) as [[e | []] st1];
      [reflexivity |].
    destruct (JS.array_includes args "--onlyGenerate"); [reflexivity |].
    destruct (discover benchmarkDir st1) as [[e | benchFiles] st2];
      [reflexivity |].
    destruct (run_all' benchFiles _ _ [] st2) as [[e | results] st3];
      reflexivity.
  - destruct (JS.array_includes args "--onlyGenerate"); [reflexivity |].
    destruct (discover benchmarkDir _) as [[e | benchFiles] st2];
      [reflexivity |].
    destruct (run_all' benchFiles _ _ [] st2) as [[e | results] st3];
      reflexivity.
Qed.

Lemma runGenerate_fresh (w : World) :
  runGenerate execa benchmarkDir
    {| world := w; hasAnyFailure := false; spawned := [] |}
  = match execa "prisma" ["generate"] benchmarkDir [] w with
    | (inl e, w1) =>
        (inl e, {| world := w1; hasAnyFailure := false;
                   spawned := [generator false] |})
    | (inr u, w1) =>
        (inr u, {| world := w1; hasAnyFailure := false;
                   spawned := [generator true] |})
    end.
Proof.
  unfold runGenerate, run_execa. simpl.
  destruct (execa "prisma" ["generate"] benchmarkDir [] w) as [[e | u] w1];
    reflexivity.
Qed.

Lemma not_included (args : list string) (x : string) :
  ~ In x args -> JS.array_includes args x = false.
Proof.
  intros Hnot. apply not_true_iff_false.
  rewrite OrchestratorFacts.array_includes_In. exact Hnot.
Qed.

(** X13: when [--skipGenerate] is not given and the generator's
    subprocess rejects, the run ends with that very error: the generator is
    the only subprocess ever started, and the directory is not read. *)
Theorem X13_generator_failure_ends_the_run
    (args : list string) (w w1 : World) (e : Thrown) :
  ~ In "--skipGenerate" args ->
  execa "prisma" ["generate"] benchmarkDir [] w = (inl e, w1) ->
  run' args w =
    (inl e, {| world := w1; hasAnyFailure := false;
               spawned := [generator false] |}).
Proof.
  intros Hskip Hgen. rewrite run_unfold. cbv zeta.
  rewrite (not_included _ _ Hskip), andb_false_r. cbn [negb].
  rewrite runGenerate_fresh, Hgen. reflexivity.
Qed.

(** X14: with [--onlyGenerate] (and without [--skipGenerate]) and a
    generator that resolves, the process exits right after generation: the
    generator is the only subprocess, and the directory is not read. *)
Theorem X14_only_generate_stops_after_the_generator
    (args : list string) (w w1 : World) :
  In "--onlyGenerate" args ->
  ~ In "--skipGenerate" args ->
  execa "prisma" ["generate"] benchmarkDir [] w = (inr tt, w1) ->
  run' args w =
    (inr ExitAfterGenerate,
     {| world := w1; hasAnyFailure := false; spawned := [generator true] |}).
Proof.
  intros Honly Hskip Hgen. rewrite run_unfold. cbv zeta.
  apply OrchestratorFacts.array_includes_In in Honly.
  rewrite (not_included _ _ Hskip), andb_false_r, Honly. cbn [negb].
  rewrite runGenerate_fresh, Hgen. reflexivity.
Qed.

(** After the options are read and the generator is through: the state
    the rest of the script starts from. *)
Lemma generate_step (args : list string) (w : World) :
  (exists e st1,
      (if negb (JS.array_includes args "--skipGenerate")
       then runGenerate execa benchmarkDir
              {| world := w; hasAnyFailure := false; spawned := [] |}
       else (inr tt, {| world := w; hasAnyFailure := false; spawned := [] |}))
      = (inl e, st1)
      /\ JS.array_includes args "--skipGenerate" = false
      /\ hasAnyFailure st1 = false
      /\ spawned st1 = [generator false])
  \/ (exists st1,
      (if negb (JS.array_includes args "--skipGenerate")
       then runGenerate execa benchmarkDir
              {| world := w; hasAnyFailure := false; spawned := [] |}
       else (inr tt, {| world := w; hasAnyFailure := false; spawned := [] |}))
      = (inr tt, st1)
      /\ hasAnyFailure st1 = false
      /\ spawned st1
         = (if JS.array_includes args "--skipGenerate" then []
            else [generator true])
      /\ Generated' args w (world st1)).
Proof.
  unfold Generated.
  destruct (JS.array_includes args "--skipGenerate"); cbn [negb].
  - right. eexists. repeat split.
  - rewrite runGenerate_fresh.
    destruct (execa "prisma" ["generate"] benchmarkDir [] w)
      as [[e | []] w1] eqn:Hgen.
    + left. eexists _, _. repeat split.
    + right. eexists. repeat split.
Qed.

(** X15: a run that ends with an uncaught error has started no fixture:
    the error comes from the conflicting flags, the generator or the
    discovery, all of which precede the first fixture.  (A fixture's own
    failure is caught and never ends the run.) *)
Theorem X15_an_uncaught_error_precedes_every_fixture
    (args : list string) (w : World) (e : Thrown) (st' : State World) :
  run' args w = (inl e, st') ->
  hasAnyFailure st' = false
  /\ Forall (fun p => command p <> "node") (spawned st').
Proof.
  rewrite run_unfold. cbv zeta.
  destruct (JS.array_includes args "--onlyGenerate"
            && JS.array_includes args "--skipGenerate").
  { intros [= <- <-]. split; [reflexivity | constructor]. }
  destruct (generate_step args w)
    as [(e1 & st1 & -> & _ & Hflag & Hsp) | (st1 & -> & Hflag & Hsp & _)].
  - intros [= <- <-]. split; [exact Hflag |]. rewrite Hsp.
    repeat constructor. discriminate.
  - assert (Hno : Forall (fun p => command p <> "node") (spawned st1)).
    { rewrite Hsp. destruct (JS.array_includes args "--skipGenerate");
        repeat constructor. discriminate. }
    destruct (JS.array_includes args "--onlyGenerate"); [discriminate |].
    destruct (OrchestratorFacts.quiet_getBenchmarkFiles join readdir
                stat_isFile benchmarkDir st1) as [Hf Hs].
    destruct (discover benchmarkDir st1) as [[e2 | benchFiles] st2];
      simpl in Hf, Hs.
    + intros [= <- <-]. rewrite Hf, Hs. auto.
    + destruct (OrchestratorFacts.run_all_spec benchmarkDir execa
                  (getTestFilter args) (shouldUpdateSnapshots args)
                  benchFiles [] st2)
        as (results & subprocesses & w' & -> & _).
      discriminate.
Qed.

(** A run that prints its table, taken apart. *)
Lemma results_anatomy
    (args : list string) (w : World) (printed : list (Mark * string))
    (status : Z) (st' : State World) :
  run' args w = (inr (ExitAfterResults printed status), st') ->
  exists st1 st2 benchFiles results subprocesses,
    Generated' args w (world st1)
    /\ discover benchmarkDir st1 = (inr benchFiles, st2)
    /\ spawned st1
       = (if JS.array_includes args "--skipGenerate" then []
          else [generator true])
    /\ printed = printResults results
    /\ spawned st' = spawned st1 ++ subprocesses
    /\ Outcomes (getTestFilter args) (shouldUpdateSnapshots args)
                benchFiles results subprocesses.
Proof.
  rewrite run_unfold. cbv zeta.
  destruct (JS.array_includes args "--onlyGenerate"
            && JS.array_includes args "--skipGenerate"); [discriminate |].
  destruct (generate_step args w)
    as [(e1 & st1 & -> & _) | (st1 & -> & Hflag & Hsp & Hworld)];
    [discriminate |].
  destruct (JS.array_includes args "--onlyGenerate"); [discriminate |].
  destruct (OrchestratorFacts.quiet_getBenchmarkFiles join readdir
              stat_isFile benchmarkDir st1) as [Hf Hs].
  destruct (discover benchmarkDir st1) as [[e2 | benchFiles] st2] eqn:Hd;
    [discriminate |]. simpl in Hf, Hs.
  destruct (OrchestratorFacts.run_all_spec benchmarkDir execa
              (getTestFilter args) (shouldUpdateSnapshots args)
              benchFiles [] st2)
    as (results & subprocesses & w' & -> & Hout).
  intros [= <- _ <-]. simpl.
  exists st1, st2, benchFiles, results, subprocesses.
  rewrite Hs. repeat split; auto.
Qed.

Lemma outcomes_tests testFilter updateSnapshots benchFiles results subprocesses :
  Outcomes testFilter updateSnapshots benchFiles results subprocesses ->
  map test results = benchFiles
  /\ map invocation subprocesses
     = map (fun benchFile =>
              ("node", [benchFile],
               [("ATTEST_updateSnapshots",
                 if updateSnapshots then "true" else "false")]))
           (filter (fun benchFile => negb (filtered_out testFilter benchFile))
                   benchFiles)
  /\ Forall (fun r => mark r = MarkSkipped
                      <-> filtered_out testFilter (test r) = true) results.
Proof.
  induction 1 as [| benchFile rest results subprocesses Hskip _ IH
                  | benchFile ok rest results subprocesses Hrun _ IH];
    simpl.
  - repeat split; constructor.
  - destruct IH as (Ht & Hi & Hm). rewrite Hskip, Ht. simpl.
    repeat split; auto. constructor; [| exact Hm].
    simpl. rewrite Hskip. unfold mark. simpl. tauto.
  - destruct IH as (Ht & Hi & Hm). rewrite Hrun, Ht. simpl.
    rewrite Hi. repeat split; auto. constructor; [| exact Hm].
    simpl. rewrite Hrun. unfold mark. simpl.
    destruct ok; split; discriminate.
Qed.

Lemma node_subprocesses (generated subprocesses : list Spawned) :
  Forall (fun p => command p = "prisma") generated ->
  Forall (fun p => command p = "node") subprocesses ->
  filter (fun p => String.eqb (command p) "node") (generated ++ subprocesses)
  = subprocesses.
Proof.
  intros Hg Hs. rewrite filter_app.
  assert (Hnone : filter (fun p => String.eqb (command p) "node") generated = []).
  { induction Hg as [| p l Hp _ IH]; simpl; [reflexivity |].
    rewrite Hp. simpl. exact IH. }
  assert (Hall : filter (fun p => String.eqb (command p) "node") subprocesses
                 = subprocesses).
  { induction Hs as [| p l Hp _ IH]; simpl; [reflexivity |].
    rewrite Hp. simpl. rewrite IH. reflexivity. }
  rewrite Hnone, Hall. reflexivity.
Qed.

(** X16: the printed table has one line for every discovered fixture, in
    the order of discovery, whether the fixture was skipped, succeeded or
    failed; a failing fixture does not keep the later ones from their
    line. *)
Theorem X16_the_table_lists_every_discovered_fixture
    (args : list string) (w : World) (printed : list (Mark * string))
    (status : Z) (st' : State World) :
  run' args w = (inr (ExitAfterResults printed status), st') ->
  exists st1 st2 benchFiles,
    Generated' args w (world st1)
    /\ discover benchmarkDir st1 = (inr benchFiles, st2)
    /\ map snd printed = benchFiles.
Proof.
  intros Hrun.
  apply results_anatomy in Hrun. destruct Hrun
    as (st1 & st2 & benchFiles & results & subprocesses
        & Hworld & Hd & _ & -> & _ & Hout).
  exists st1, st2, benchFiles. split; [exact Hworld |].
  split; [exact Hd |].
  apply outcomes_tests in Hout as Hfacts. destruct Hfacts as (Ht & _).
  unfold printResults. rewrite map_map. exact Ht.
Qed.

(** X17: the fixture subprocesses of a run are, in the order of
    discovery, one [node <fixture>] for every discovered fixture that the
    name filter does not exclude, each with the single environment variable
    [ATTEST_updateSnapshots], which is ["true"] exactly when [-u] or
    [--updateSnapshots] is among the arguments and ["false"] otherwise. *)
Theorem X17_fixture_subprocesses_and_their_environment
    (args : list string) (w : World) (printed : list (Mark * string))
    (status : Z) (st' : State World) :
  run' args w = (inr (ExitAfterResults printed status), st') ->
  exists st1 st2 benchFiles,
    Generated' args w (world st1)
    /\ discover benchmarkDir st1 = (inr benchFiles, st2)
    /\ map invocation
         (filter (fun p => String.eqb (command p) "node") (spawned st'))
       = map (fun benchFile =>
                ("node", [benchFile],
                 [("ATTEST_updateSnapshots",
                   if shouldUpdateSnapshots args then "true" else "false")]))
             (filter (fun benchFile =>
                        negb (filtered_out (getTestFilter args) benchFile))
                     benchFiles)
    /\ (shouldUpdateSnapshots args = true
        <-> In "-u" args \/ In "--updateSnapshots" args).
Proof.
  intros Hrun.
  apply results_anatomy in Hrun. destruct Hrun
    as (st1 & st2 & benchFiles & results & subprocesses
        & Hworld & Hd & Hgen & _ & Hsp & Hout).
  exists st1, st2, benchFiles. split; [exact Hworld |].
  split; [exact Hd |].
  apply outcomes_tests in Hout as Hfacts. destruct Hfacts as (_ & Hinv & _).
  split.
  - rewrite Hsp, node_subprocesses; [exact Hinv | |].
    + rewrite Hgen. destruct (JS.array_includes args "--skipGenerate");
        repeat constructor.
    + apply Forall_forall. intros p Hp.
      destruct (OrchestratorFacts.outcomes_subprocess _ Hout Hp)
        as (r & _ & _ & _ & ->). reflexivity.
  - unfold shouldUpdateSnapshots.
    rewrite orb_true_iff, !OrchestratorFacts.array_includes_In. reflexivity.
Qed.

(** X18: when every argument starts with a dash there is no name filter:
    no fixture is marked skipped, and every discovered fixture gets its
    subprocess. *)
Theorem X18_without_a_filter_nothing_is_skipped
    (args : list string) (w : World) (printed : list (Mark * string))
    (status : Z) (st' : State World) :
  Forall (fun arg => JS.startsWith arg "-" = true) args ->
  run' args w = (inr (ExitAfterResults printed status), st') ->
  Forall (fun line => fst line <> MarkSkipped) printed
  /\ map Orchestrator.arguments
         (filter (fun p => String.eqb (command p) "node") (spawned st'))
     = map (fun benchFile => [benchFile]) (map snd printed).
Proof.
  intros Hflags Hrun.
  assert (Hfilter : getTestFilter args = None).
  { unfold getTestFilter. apply find_none.
    eapply Forall_impl; [| exact Hflags]. intros a Ha. simpl.
    rewrite Ha. reflexivity. }
  apply results_anatomy in Hrun. destruct Hrun
    as (st1 & st2 & benchFiles & results & subprocesses
        & Hworld & Hd & Hgen & -> & Hsp & Hout).
  rewrite Hfilter in Hout.
  apply outcomes_tests in Hout as Hfacts. destruct Hfacts as (Ht & Hinv & Hmarks).
  split.
  - unfold printResults. apply Forall_forall. intros line Hin.
    apply in_map_iff in Hin. destruct Hin as (r & <- & Hr). simpl.
    rewrite Forall_forall in Hmarks. rewrite (Hmarks r Hr). simpl.
    discriminate.
  - rewrite Hsp, node_subprocesses.
    + assert (Hnames : map snd (printResults results) = benchFiles).
      { unfold printResults. rewrite map_map. exact Ht. }
      rewrite Hnames.
      transitivity (map (fun i => snd (fst i)) (map invocation subprocesses)).
      { rewrite map_map. reflexivity. }
      rewrite Hinv, map_map. cbn [fst snd]. f_equal.
      clear. induction benchFiles as [| f l IH]; simpl; [reflexivity |].
      f_equal. exact IH.
    + rewrite Hgen. destruct (JS.array_includes args "--skipGenerate");
        repeat constructor.
    + apply Forall_forall. intros p Hp.
      destruct (OrchestratorFacts.outcomes_subprocess _ Hout Hp)
        as (r & _ & _ & _ & ->). reflexivity.
Qed.

(** X19: with a name filter [f] (the first argument that does not start
    with a dash, when it is not empty), a fixture's line is marked skipped
    exactly when its file name does not contain [f]. *)
Theorem X19_the_filter_decides_what_is_skipped
    (args : list string) (w : World) (printed : list (Mark * string))
    (status : Z) (st' : State World) (f : string) :
  getTestFilter args = Some f ->
  f <> EmptyString ->
  run' args w = (inr (ExitAfterResults printed status), st') ->
  Forall (fun line => fst line = MarkSkipped
                      <-> JS.includes (snd line) f = false) printed.
Proof.
  intros Hfilter Hne Hrun.
  apply results_anatomy in Hrun. destruct Hrun
    as (st1 & st2 & benchFiles & results & subprocesses
        & _ & _ & _ & -> & _ & Hout).
  rewrite Hfilter in Hout.
  apply outcomes_tests in Hout as Hfacts. destruct Hfacts as (_ & _ & Hmarks).
  unfold printResults. apply Forall_forall. intros line Hin.
  apply in_map_iff in Hin. destruct Hin as (r & <- & Hr). simpl.
  rewrite Forall_forall in Hmarks. rewrite (Hmarks r Hr).
  destruct f as [| c f]; [congruence |]. simpl.
  rewrite negb_true_iff. reflexivity.
Qed.

(** X20: the generator is started exactly when [--skipGenerate] is not
    among the arguments, and then it is the first subprocess of the run
    and the only one of its kind. *)
Theorem X20_the_generator_runs_unless_skipped
    (args : list string) (w : World) :
  (In "--skipGenerate" args <->
   Forall (fun p => command p <> "prisma") (spawned (snd (run' args w))))
  /\ (~ In "--skipGenerate" args ->
      exists ok rest,
        spawned (snd (run' args w)) = generator ok :: rest
        /\ Forall (fun p => command p = "node") rest).
Proof.
  assert (Hshape :
            (JS.array_includes args "--skipGenerate" = true
             /\ Forall (fun p => command p = "node")
                       (spawned (snd (run' args w))))
            \/ (JS.array_includes args "--skipGenerate" = false
                /\ exists ok rest,
                    spawned (snd (run' args w)) = generator ok :: rest
                    /\ Forall (fun p => command p = "node") rest)).
  { rewrite run_unfold. cbv zeta.
    destruct (JS.array_includes args "--onlyGenerate"
              && JS.array_includes args "--skipGenerate") eqn:Hboth.
    { left. apply andb_true_iff in Hboth. split; [tauto | constructor]. }
    destruct (generate_step args w)
      as [(e1 & st1 & -> & Hskip & _ & Hsp) | (st1 & -> & _ & Hsp & _)].
    - right. split; [exact Hskip |]. simpl. rewrite Hsp. eauto.
    - assert (Hrest : forall st2 : State World,
                 spawned st2 = spawned st1 \/
                 (exists subprocesses,
                     spawned st2 = spawned st1 ++ subprocesses
                     /\ Forall (fun p => command p = "node") subprocesses) ->
                 (JS.array_includes args "--skipGenerate" = true
                  /\ Forall (fun p => command p = "node") (spawned st2))
                 \/ (JS.array_includes args "--skipGenerate" = false
                     /\ exists ok rest,
                         spawned st2 = generator ok :: rest
                         /\ Forall (fun p => command p = "node") rest)).
      { intros st2 Hst2. rewrite Hsp in Hst2.
        destruct (JS.array_includes args "--skipGenerate").
        - left. split; [reflexivity |].
          destruct Hst2 as [-> | (subs & -> & Hn)]; [constructor | exact Hn].
        - right. split; [reflexivity |].
          destruct Hst2 as [-> | (subs & -> & Hn)]; simpl; eauto. }
      destruct (JS.array_includes args "--onlyGenerate");
        [apply Hrest; auto |].
      destruct (OrchestratorFacts.quiet_getBenchmarkFiles join readdir
                  stat_isFile benchmarkDir st1) as [_ Hs].
      destruct (discover benchmarkDir st1) as [[e2 | benchFiles] st2];
        simpl in Hs; [apply Hrest; auto |].
      destruct (OrchestratorFacts.run_all_spec benchmarkDir execa
                  (getTestFilter args) (shouldUpdateSnapshots args)
                  benchFiles [] st2)
        as (results & subprocesses & w' & -> & Hout).
      apply Hrest. right. exists subprocesses. simpl. rewrite Hs.
      split; [reflexivity |]. apply Forall_forall. intros p Hp.
      destruct (OrchestratorFacts.outcomes_subprocess _ Hout Hp)
        as (r & _ & _ & _ & ->). reflexivity. }
  rewrite <- OrchestratorFacts.array_includes_In.
  destruct Hshape as [[Hskip Hnode] | [Hskip (ok & rest & Hsp & Hnode)]].
  - split.
    + split; [| intros _; exact Hskip]. intros _.
      eapply Forall_impl; [| exact Hnode]. intros p ->. discriminate.
    + intros Habs. congruence.
  - split.
    + split; [congruence |]. rewrite Hsp. intros Hall.
      inversion Hall as [| ? ? Hp _]. exfalso. apply Hp. reflexivity.
    + intros _. eauto.
Qed.

End Facts.

End OrchestratorMore.

(* ===================================================================== *)
(** ** The further properties at concrete runs                            *)
(* ===================================================================== *)

Module MoreRuns.

Import Effect.
Local Open Scope string_scope.

Local Abbreviation bc := (Lab.runBenchmark ["b.ts"; "c.ts"]).
Local Abbreviation lab := (Lab.start Lab.flaky_disk).
Local Abbreviation fresh w :=
  {| Orchestrator.world := w; Orchestrator.hasAnyFailure := false;
     Orchestrator.spawned := [] |}.
Local Abbreviation listing :=
  ["a.bench.ts"; "broken"; "dir.bench.ts"; "b.bench.ts"].
Local Abbreviation discover :=
  (Orchestrator.getBenchmarkFiles Yard.join Yard.readdir Yard.stat_isFile).

Lemma X2_witness :
  Measure.success (fst (Lab.measureTypeChecking "b.ts" Lab.flaky_disk)) = true
  /\ exists program wa semantic wb syntactic wc global wd,
      Measure.Constructed Lab.ts_findConfigFile Lab.ts_readOptions
        Lab.ts_createProgram (Lab.path_resolve "b.ts")
        (snd (Lab.performance_now Lab.flaky_disk)) program wa
      /\ Lab.getSemanticDiagnostics program (snd (Lab.performance_now wa))
         = (inr semantic, wb)
      /\ Lab.getSyntacticDiagnostics program wb = (inr syntactic, wc)
      /\ Lab.getGlobalDiagnostics program wc = (inr global, wd)
      /\ Measure.diagnosticsCount
           (fst (Lab.measureTypeChecking "b.ts" Lab.flaky_disk))
         = (length semantic + length syntactic + length global)%nat
      /\ Measure.typeCheckTime
           (fst (Lab.measureTypeChecking "b.ts" Lab.flaky_disk))
         = Measure.clock Lab.performance_now wd
           - Measure.clock Lab.performance_now wa.
Proof.
  split; [reflexivity |].
  exact (@ProberMore.X2_successful_measurement_counts_all_diagnostics
           _ _ _ _ Lab.path_resolve Lab.fs_existsSync Lab.performance_now
           Lab.ts_findConfigFile Lab.ts_readOptions Lab.ts_createProgram
           Lab.getSemanticDiagnostics Lab.getSyntacticDiagnostics
           Lab.getGlobalDiagnostics "b.ts" Lab.flaky_disk eq_refl).
Defined.

Local Abbreviation first_probe :=
  {| Measure.file := "a.ts"; Measure.typeCheckTime := 10;
     Measure.totalTime := 14; Measure.diagnosticsCount := 3;
     Measure.success := true; Measure.error := None |}.
Local Abbreviation second_probe :=
  {| Measure.file := "a.ts"; Measure.typeCheckTime := 0;
     Measure.totalTime := 0; Measure.diagnosticsCount := 0;
     Measure.success := false;
     Measure.error := Some "File not found: /bench/a.ts" |}.

Lemma X3_witness :
  Views.ordinary_keys ["b.ts"; "c.ts"; "b.ts"]
  /\ NoDup (map Measure.File
              (Views.summary_table
                 (fst (Lab.runBenchmark ["b.ts"; "c.ts"; "b.ts"] 2%Z lab))))
  /\ forall file,
       In file
          (map Measure.File
             (Views.summary_table
                (fst (Lab.runBenchmark ["b.ts"; "c.ts"; "b.ts"] 2%Z lab))))
       <-> In file ["b.ts"; "c.ts"; "b.ts"].
Proof.
  assert (Hkeys : Views.ordinary_keys ["b.ts"; "c.ts"; "b.ts"]).
  { unfold Views.ordinary_keys. simpl.
    intros [H | [H | [H | []]]]; discriminate. }
  split; [exact Hkeys |].
  exact (@RunnerMore.X3_one_summary_row_per_distinct_path
           _ _ _ _ Lab.path_resolve Lab.fs_existsSync Lab.performance_now
           Lab.ts_findConfigFile Lab.ts_readOptions Lab.ts_createProgram
           Lab.getSemanticDiagnostics Lab.getSyntacticDiagnostics
           Lab.getGlobalDiagnostics ["b.ts"; "c.ts"; "b.ts"] 2%Z lab Hkeys).
Defined.

Lemma X7_witness :
  Views.ordinary_keys ["b.ts"; "c.ts"]
  /\ match fst (bc 1%Z lab) with
     | Measure.Completed summaryData None =>
         ~ Views.two_paths ["b.ts"; "c.ts"]
     | Measure.Completed summaryData (Some table) =>
         Views.two_paths ["b.ts"; "c.ts"]
         /\ exists row, In row summaryData /\ Measure.is_valid row = true
     | Measure.ReduceOfEmptyArray summaryData =>
         Views.two_paths ["b.ts"; "c.ts"]
         /\ forall row, In row summaryData -> Measure.is_valid row = false
     end.
Proof.
  assert (Hkeys : Views.ordinary_keys ["b.ts"; "c.ts"]).
  { unfold Views.ordinary_keys. simpl. intros [H | [H | []]]; discriminate. }
  split; [exact Hkeys |].
  exact (@RunnerMore.X7_when_a_run_compares_and_when_it_throws
           _ _ _ _ Lab.path_resolve Lab.fs_existsSync Lab.performance_now
           Lab.ts_findConfigFile Lab.ts_readOptions Lab.ts_createProgram
           Lab.getSemanticDiagnostics Lab.getSyntacticDiagnostics
           Lab.getGlobalDiagnostics ["b.ts"; "c.ts"] 1%Z lab Hkeys).
Defined.



Lemma X8_witness :
  (0 <= 0)%Z
  /\ (exists warm,
        Measure.calls (snd (bc 0%Z lab)) = (Measure.calls lab ++ warm)%list
        /\ map fst warm = ["b.ts"; "c.ts"])
  /\ (forall row,
        In row (Views.summary_table (fst (bc 0%Z lab))) ->
        row = Measure.error_row (Measure.File row))
  /\ (Views.ordinary_keys ["b.ts"; "c.ts"] ->
      Views.two_paths ["b.ts"; "c.ts"] ->
      fst (bc 0%Z lab)
      = Measure.ReduceOfEmptyArray (Views.summary_table (fst (bc 0%Z lab)))).
Proof.
  split; [apply Z.le_refl |].
  exact (@RunnerMore.X8_no_iterations_means_only_error_rows
           _ _ _ _ Lab.path_resolve Lab.fs_existsSync Lab.performance_now
           Lab.ts_findConfigFile Lab.ts_readOptions Lab.ts_createProgram
           Lab.getSemanticDiagnostics Lab.getSyntacticDiagnostics
           Lab.getGlobalDiagnostics ["b.ts"; "c.ts"] 0%Z lab (Z.le_refl 0)).
Defined.

Local Abbreviation compared :=
  (filter Measure.is_valid (Views.summary_table (fst (bc 1%Z lab)))).


Lemma X10_witness :
  ["b.ts"; "c.ts"] <> []
  /\ Forall (fun arg => JS.startsWith arg "--iterations=" = false)
            ["b.ts"; "c.ts"]
  /\ Measure.parse_args ["b.ts"; "c.ts"] = (["b.ts"; "c.ts"], 5%Z)
  /\ Lab.main ["b.ts"; "c.ts"] lab
     = (Measure.Ran (fst (bc 5%Z lab)), snd (bc 5%Z lab)).
Proof.
  assert (Hne : ["b.ts"; "c.ts"] <> []) by discriminate.
  assert (Hflags : Forall (fun arg => JS.startsWith arg "--iterations=" = false)
                          ["b.ts"; "c.ts"])
    by (repeat constructor).
  split; [exact Hne | split; [exact Hflags |]].
  exact (@RunnerMore.X10_default_iteration_count
           _ _ _ _ Lab.path_resolve Lab.fs_existsSync Lab.performance_now
           Lab.ts_findConfigFile Lab.ts_readOptions Lab.ts_createProgram
           Lab.getSemanticDiagnostics Lab.getSyntacticDiagnostics
           Lab.getGlobalDiagnostics ["b.ts"; "c.ts"] lab Hne Hflags).
Defined.

Lemma X11_witness :
  discover "/bench" (fresh []) = (inr ["a.bench.ts"; "b.bench.ts"], fresh [])
  /\ exists items w1 answers,
      Yard.readdir "/bench" [] = (inr items, w1)
      /\ Views.Stats Yard.join Yard.stat_isFile "/bench" items w1 answers []
      /\ ["a.bench.ts"; "b.bench.ts"] = Views.kept items answers
      /\ Forall (fun f => JS.endsWith f ".bench.ts" = true)
                ["a.bench.ts"; "b.bench.ts"]
      /\ (forall f, In f ["a.bench.ts"; "b.bench.ts"] -> In f items)
      /\ Orchestrator.hasAnyFailure (fresh (@nil string))
         = Orchestrator.hasAnyFailure (fresh (@nil string))
      /\ Orchestrator.spawned (fresh (@nil string))
         = Orchestrator.spawned (fresh (@nil string)).
Proof.
  split; [reflexivity |].
  exact (@OrchestratorMore.X11_discovery_keeps_bench_files_in_listing_order
           _ Yard.join Yard.readdir Yard.stat_isFile "/bench"
           (fresh []) (fresh []) ["a.bench.ts"; "b.bench.ts"] eq_refl).
Defined.

Lemma X12_witness :
  Yard.readdir "/bench" ["broken"] = (inr listing, ["broken"])
  /\ Views.StatRejects Yard.join Yard.stat_isFile "/bench" listing ["broken"]
       (ThrownError "ENOENT: no such file or directory") ["broken"]
  /\ discover "/bench" (fresh ["broken"])
     = (inl (ThrownError "ENOENT: no such file or directory"),
        fresh ["broken"]).
Proof.
  assert (Hrej : Views.StatRejects Yard.join Yard.stat_isFile "/bench" listing
                   ["broken"]
                   (ThrownError "ENOENT: no such file or directory")
                   ["broken"]).
  { apply Views.rejects_later with (isFile := true) (w1 := ["broken"]);
      [reflexivity |].
    apply Views.rejects_here. reflexivity. }
  split; [reflexivity | split; [exact Hrej |]].
  exact (@OrchestratorMore.X12_any_stat_rejection_aborts_discovery
           _ Yard.join Yard.readdir Yard.stat_isFile "/bench"
           (fresh ["broken"]) listing ["broken"] ["broken"]
           (ThrownError "ENOENT: no such file or directory") eq_refl Hrej).
Defined.

Lemma X13_witness :
  ~ In "--skipGenerate" ["-u"]
  /\ Yard.execa "prisma" ["generate"] "/bench" [] ["prisma"]
     = (inl (ThrownError "Command failed with exit code 1"), ["prisma"])
  /\ Yard.run ["-u"] ["prisma"]
     = (inl (ThrownError "Command failed with exit code 1"),
        {| Orchestrator.world := ["prisma"];
           Orchestrator.hasAnyFailure := false;
           Orchestrator.spawned :=
             [{| Orchestrator.command := "prisma";
                 Orchestrator.arguments := ["generate"];
                 Orchestrator.environment := [];
                 Orchestrator.resolved := false |}] |}).
Proof.
  assert (Hskip : ~ In "--skipGenerate" ["-u"]).
  { simpl. intros [H | []]. discriminate. }
  split; [exact Hskip | split; [reflexivity |]].
  exact (@OrchestratorMore.X13_generator_failure_ends_the_run
           _ "/bench" Yard.join Yard.readdir Yard.stat_isFile Yard.execa
           ["-u"] ["prisma"] ["prisma"]
           (ThrownError "Command failed with exit code 1") Hskip eq_refl).
Defined.

Lemma X14_witness :
  In "--onlyGenerate" ["-u"; "--onlyGenerate"]
  /\ ~ In "--skipGenerate" ["-u"; "--onlyGenerate"]
  /\ Yard.execa "prisma" ["generate"] "/bench" [] ["broken"]
     = (inr tt, ["broken"])
  /\ Yard.run ["-u"; "--onlyGenerate"] ["broken"]
     = (inr Orchestrator.ExitAfterGenerate,
        {| Orchestrator.world := ["broken"];
           Orchestrator.hasAnyFailure := false;
           Orchestrator.spawned :=
             [{| Orchestrator.command := "prisma";
                 Orchestrator.arguments := ["generate"];
                 Orchestrator.environment := [];
                 Orchestrator.resolved := true |}] |}).
Proof.
  assert (Honly : In "--onlyGenerate" ["-u"; "--onlyGenerate"])
    by (simpl; auto).
  assert (Hskip : ~ In "--skipGenerate" ["-u"; "--onlyGenerate"]).
  { simpl. intros [H | [H | []]]; discriminate. }
  split; [exact Honly | split; [exact Hskip | split; [reflexivity |]]].
  exact (@OrchestratorMore.X14_only_generate_stops_after_the_generator
           _ "/bench" Yard.join Yard.readdir Yard.stat_isFile Yard.execa
           ["-u"; "--onlyGenerate"] ["broken"] ["broken"]
           Honly Hskip eq_refl).
Defined.

Lemma X15_witness :
  Yard.run [] ["broken"]
  = (inl (ThrownError "ENOENT: no such file or directory"),
     snd (Yard.run [] ["broken"]))
  /\ Orchestrator.hasAnyFailure (snd (Yard.run [] ["broken"])) = false
  /\ Forall (fun p => Orchestrator.command p <> "node")
            (Orchestrator.spawned (snd (Yard.run [] ["broken"]))).
Proof.
  split; [reflexivity |].
  exact (@OrchestratorMore.X15_an_uncaught_error_precedes_every_fixture
           _ "/bench" Yard.join Yard.readdir Yard.stat_isFile Yard.execa
           [] ["broken"] (ThrownError "ENOENT: no such file or directory")
           (snd (Yard.run [] ["broken"])) eq_refl).
Defined.

Local Abbreviation filtered := (Yard.run ["-u"; "a"] []).
Local Abbreviation filtered_table :=
  [(Orchestrator.MarkSuccess, "a.bench.ts");
   (Orchestrator.MarkSkipped, "b.bench.ts")].

Lemma X16_witness :
  filtered
  = (inr (Orchestrator.ExitAfterResults filtered_table 0%Z), snd filtered)
  /\ exists st1 st2 benchFiles,
      Views.Generated Yard.execa "/bench" ["-u"; "a"] []
        (Orchestrator.world st1)
      /\ discover "/bench" st1 = (inr benchFiles, st2)
      /\ map snd filtered_table = benchFiles.
Proof.
  split; [reflexivity |].
  exact (@OrchestratorMore.X16_the_table_lists_every_discovered_fixture
           _ "/bench" Yard.join Yard.readdir Yard.stat_isFile Yard.execa
           ["-u"; "a"] [] filtered_table 0%Z (snd filtered) eq_refl).
Defined.

Lemma X17_witness :
  filtered
  = (inr (Orchestrator.ExitAfterResults filtered_table 0%Z), snd filtered)
  /\ exists st1 st2 benchFiles,
      Views.Generated Yard.execa "/bench" ["-u"; "a"] []
        (Orchestrator.world st1)
      /\ discover "/bench" st1 = (inr benchFiles, st2)
      /\ map Views.invocation
           (filter (fun p => String.eqb (Orchestrator.command p) "node")
                   (Orchestrator.spawned (snd filtered)))
         = map (fun benchFile =>
                  ("node", [benchFile],
                   [("ATTEST_updateSnapshots",
                     if Orchestrator.shouldUpdateSnapshots ["-u"; "a"]
                     then "true" else "false")]))
               (filter (fun benchFile =>
                          negb (Orchestrator.filtered_out
                                  (Orchestrator.getTestFilter ["-u"; "a"])
                                  benchFile))
                       benchFiles)
      /\ (Orchestrator.shouldUpdateSnapshots ["-u"; "a"] = true
          <-> In "-u" ["-u"; "a"] \/ In "--updateSnapshots" ["-u"; "a"]).
Proof.
  split; [reflexivity |].
  exact (@OrchestratorMore.X17_fixture_subprocesses_and_their_environment
           _ "/bench" Yard.join Yard.readdir Yard.stat_isFile Yard.execa
           ["-u"; "a"] [] filtered_table 0%Z (snd filtered) eq_refl).
Defined.

Local Abbreviation unfiltered := (Yard.run ["--skipGenerate"; "-u"] []).
Local Abbreviation unfiltered_table :=
  [(Orchestrator.MarkSuccess, "a.bench.ts");
   (Orchestrator.MarkSuccess, "b.bench.ts")].

Lemma X18_witness :
  Forall (fun arg => JS.startsWith arg "-" = true) ["--skipGenerate"; "-u"]
  /\ unfiltered
     = (inr (Orchestrator.ExitAfterResults unfiltered_table 0%Z),
        snd unfiltered)
  /\ Forall (fun line => fst line <> Orchestrator.MarkSkipped)
            unfiltered_table
  /\ map Orchestrator.arguments
         (filter (fun p => String.eqb (Orchestrator.command p) "node")
                 (Orchestrator.spawned (snd unfiltered)))
     = map (fun benchFile => [benchFile]) (map snd unfiltered_table).
Proof.
  assert (Hflags : Forall (fun arg => JS.startsWith arg "-" = true)
                          ["--skipGenerate"; "-u"])
    by (repeat constructor).
  split; [exact Hflags | split; [reflexivity |]].
  exact (@OrchestratorMore.X18_without_a_filter_nothing_is_skipped
           _ "/bench" Yard.join Yard.readdir Yard.stat_isFile Yard.execa
           ["--skipGenerate"; "-u"] [] unfiltered_table 0%Z (snd unfiltered)
           Hflags eq_refl).
Defined.

Local Abbreviation only_b := (Yard.run ["--skipGenerate"; "b."] []).
Local Abbreviation only_b_table :=
  [(Orchestrator.MarkSkipped, "a.bench.ts");
   (Orchestrator.MarkSuccess, "b.bench.ts")].

Lemma X19_witness :
  Orchestrator.getTestFilter ["--skipGenerate"; "b."] = Some "b."
  /\ "b." <> EmptyString
  /\ only_b
     = (inr (Orchestrator.ExitAfterResults only_b_table 0%Z), snd only_b)
  /\ Forall (fun line => fst line = Orchestrator.MarkSkipped
                         <-> JS.includes (snd line) "b." = false)
            only_b_table.
Proof.
  assert (Hne : "b." <> EmptyString) by discriminate.
  split; [reflexivity | split; [exact Hne | split; [reflexivity |]]].
  exact (@OrchestratorMore.X19_the_filter_decides_what_is_skipped
           _ "/bench" Yard.join Yard.readdir Yard.stat_isFile Yard.execa
           ["--skipGenerate"; "b."] [] only_b_table 0%Z (snd only_b) "b."
           eq_refl Hne eq_refl).
Defined.

End MoreRuns.
